(** * ecosystems-go: a shallow embedding of [purl.go] and [client.go]

    The Go package [ecosystems] is a thin client for the ecosyste.ms
    package and repository APIs.  It consists of a mapping from PURL
    ecosystem types to registry names, a name formatting rule, and a
    handful of request loops (batched bulk lookup, paginated version
    listing, single-entity lookups) around a generated OpenAPI client.

    Conventions of the embedding:
    - a Go [string] is a [string] (a sequence of bytes);
    - a Go [int] holding a status code or a page number is a [Z]; the
      page counter is incremented with 64-bit wrap-around ([int_add]);
      slice lengths and slice indexes are [nat];
    - a Go slice is a [list]; the nil slice and the empty slice are both
      [[]];
    - a Go pointer that may be nil is an [option];
    - a Go [map[string]V] is a [gmap string V]; a map value that may be
      nil is an [option (gmap string V)];
    - a Go function returning [(T, error)] returns a pair whose second
      component is an [option error], [None] being the nil error;
    - the remote service is a function of the requests sent so far: the
      state threaded through the client is the list of calls issued. *)

From Stdlib Require Import String Ascii ZArith List Lia.
From stdpp Require Import gmap strings list pretty.
From Equations Require Import Equations.

Open Scope string_scope.
Open Scope list_scope.

(** ** Errors

    Every error built by the package comes from [fmt.Errorf] with at most
    one argument.  The constructors keep the format string and the
    argument apart, so that "the error carries the status code" is a
    statement about the argument. *)

Inductive error : Type :=
| ExternalError (msg : string)
| Errorf (format : string)
| Errorf_s (format : string) (arg : string)
| Errorf_d (format : string) (arg : Z)
| Errorf_w (format : string) (cause : error).

(** ** The external package [packageurl] *)

Module packageurl.

(** [packageurl.PackageURL]; [Type] is a reserved word, hence [Type_]. *)
Record PackageURL : Type := mkPackageURL {
  Type_ : string;
  Namespace : string;
  Name : string;
  Version : string;
  Qualifiers : list (string * string);
  Subpath : string
}.

(** The type constants of the library that [purl.go] refers to. *)
Definition TypeAlpm := "alpm".
Definition TypeApk := "apk".
Definition TypeBitbucket := "bitbucket".
Definition TypeBitnami := "bitnami".
Definition TypeBower := "bower".
Definition TypeCargo := "cargo".
Definition TypeCarthage := "carthage".
Definition TypeChef := "chef".
Definition TypeChocolatey := "chocolatey".
Definition TypeClojars := "clojars".
Definition TypeCocoapods := "cocoapods".
Definition TypeComposer := "composer".
Definition TypeConan := "conan".
Definition TypeConda := "conda".
Definition TypeCpan := "cpan".
Definition TypeCran := "cran".
Definition TypeDocker := "docker".
Definition TypeElm := "elm".
Definition TypeGem := "gem".
Definition TypeGeneric := "generic".
Definition TypeGithub := "github".
Definition TypeGolang := "golang".
Definition TypeHackage := "hackage".
Definition TypeHex := "hex".
Definition TypeHuggingface := "huggingface".
Definition TypeMaven := "maven".
Definition TypeNPM := "npm".
Definition TypeNuget := "nuget".
Definition TypeOCI := "oci".
Definition TypePub := "pub".
Definition TypePyPi := "pypi".
Definition TypeRPM := "rpm".
Definition TypeSwift := "swift".

End packageurl.

(** ** purl.go *)

(** [purlTypeToRegistry] maps PURL types to ecosyste.ms registry names. *)
Definition purlTypeToRegistry : gmap string string :=
  list_to_map [
    (packageurl.TypeAlpm,        "archlinux.org");
    (packageurl.TypeApk,         "alpine-edge");
    (packageurl.TypeBitbucket,   "");
    (packageurl.TypeBitnami,     "");
    (packageurl.TypeBower,       "bower.io");
    (packageurl.TypeCargo,       "crates.io");
    (packageurl.TypeCarthage,    "carthage");
    (packageurl.TypeChef,        "supermarket.chef.io");
    (packageurl.TypeChocolatey,  "chocolatey.org");
    (packageurl.TypeClojars,     "clojars.org");
    (packageurl.TypeCocoapods,   "cocoapods.org");
    (packageurl.TypeComposer,    "packagist.org");
    (packageurl.TypeConan,       "conan.io");
    (packageurl.TypeConda,       "anaconda.org");
    (packageurl.TypeCpan,        "metacpan.org");
    (packageurl.TypeCran,        "cran.r-project.org");
    (packageurl.TypeDocker,      "hub.docker.com");
    (packageurl.TypeElm,         "package.elm-lang.org");
    (packageurl.TypeGem,         "rubygems.org");
    (packageurl.TypeGeneric,     "");
    (packageurl.TypeGithub,      "");
    (packageurl.TypeGolang,      "proxy.golang.org");
    (packageurl.TypeHackage,     "hackage.haskell.org");
    (packageurl.TypeHex,         "hex.pm");
    (packageurl.TypeHuggingface, "");
    (packageurl.TypeMaven,       "repo1.maven.org");
    (packageurl.TypeNPM,         "npmjs.org");
    (packageurl.TypeNuget,       "nuget.org");
    (packageurl.TypeOCI,         "");
    (packageurl.TypePub,         "pub.dev");
    (packageurl.TypePyPi,        "pypi.org");
    (packageurl.TypeRPM,         "");
    (packageurl.TypeSwift,       "swiftpackageindex.com");
    ("brew",          "formulae.brew.sh");
    ("deb",           "debian");
    ("julia",         "juliahub.com");
    ("puppet",        "forge.puppet.com")
  ].

(** Indexing a Go map with a key it does not hold gives the zero value of
    the value type, here the empty string. *)
Definition go_index (m : gmap string string) (k : string) : string :=
  default "" (m !! k).

(** [PURLToRegistry] converts a PURL type to the ecosyste.ms registry name. *)
Definition PURLToRegistry (purl : packageurl.PackageURL) : string :=
  go_index purlTypeToRegistry (packageurl.Type_ purl).

(** [PURLToName] converts a PURL to the ecosyste.ms package name format. *)
Definition PURLToName (purl : packageurl.PackageURL) : string :=
  let name := packageurl.Name purl in
  if decide (packageurl.Namespace purl = "") then name
  else if decide (packageurl.Type_ purl = packageurl.TypeMaven) then
    (* Maven uses colon separator for group:artifact *)
    packageurl.Namespace purl +:+ ":" +:+ packageurl.Name purl
  else if decide (packageurl.Type_ purl = packageurl.TypeApk) then
    (* APK packages ignore namespace *)
    name
  else
    (* Most ecosystems use slash separator *)
    packageurl.Namespace purl +:+ "/" +:+ packageurl.Name purl.

(** [strings.HasPrefix]. *)
Definition HasPrefix (s pre : string) : bool := String.prefix pre s.

(** [ParsePURL] parses a PURL string.  The syntax itself belongs to
    [packageurl.FromString], which the function takes as it finds it. *)
Definition ParsePURL
    (FromString : string -> packageurl.PackageURL * option error)
    (s : string) : packageurl.PackageURL * option error :=
  let s := if negb (HasPrefix s "pkg:") then "pkg:" +:+ s else s in
  FromString s.

(** [SupportedPURLTypes] returns all PURL types that have registry
    mappings; Go leaves the iteration order of a map open, the embedding
    takes the order of [map_to_list]. *)
Definition SupportedPURLTypes : list string :=
  foldr (fun '(t, registry) types =>
           if decide (registry <> "") then t :: types else types)
        [] (map_to_list purlTypeToRegistry).

(** ** Machine integers *)

(** Go's [int] is 64 bits wide on the platforms the module builds for;
    [int_add] is its addition. *)
Definition int_wrap (z : Z) : Z := ((z + 2 ^ 63) mod 2 ^ 64 - 2 ^ 63)%Z.
Definition int_add (x y : Z) : Z := int_wrap (x + y).

(** [x > y] on lengths is decided like [y < x]. *)
#[global] Instance nat_gt_dec : RelDecision gt := fun x y => decide (y < x).

(** [purls[i:j]] for [i <= j <= len(purls)]. *)
Definition slice {A} (l : list A) (i j : nat) : list A := take (j - i) (drop i l).

(** ** The network

    The types that the OpenAPI generator derives from the service schema
    are opaque to this package: it hands them through and never reads a
    field ([PackageWithRegistry.Purl] apart). *)
Class Schema : Type := {
  Package : Type;
  VersionWithDependencies : Type;
  Version : Type;
  Registry : Type;
  Repository : Type
}.

(** One entry per request that leaves the client. *)
Inductive Call : Type :=
| CallBulkLookupPackages (purls : list string)
| CallGetRegistryPackage (registry name : string)
| CallGetRegistryPackageVersion (registry name version : string)
| CallGetRegistryPackageVersions (registry name : string) (page perPage : Z)
| CallGetRegistries
| CallRepositoriesLookup (url : string).

(** A computation that talks to the network: it starts from the calls
    issued so far and ends with the calls issued so far. *)
Definition M (A : Type) : Type := list Call -> A * list Call.

Definition ret {A} (a : A) : M A := fun h => (a, h).
Definition bind {A B} (m : M A) (k : A -> M B) : M B :=
  fun h => let '(a, h') := m h in k a h'.

Declare Scope net_scope.
Delimit Scope net_scope with net.
Notation "'let*' x := m 'in' k" := (bind m (fun x => k))
  (at level 10, x name, m at level 100, k at level 200) : net_scope.

(** [net/http] *)
Module http.
Definition StatusOK : Z := 200.
Definition StatusNotFound : Z := 404.

(** Durations are in nanoseconds, as in [time.Duration]. *)
Definition Second : Z := 1000000000.

Record Dialer : Type := { Dialer_Timeout : Z; KeepAlive : Z }.

Record Transport : Type := {
  MaxIdleConns : Z;
  MaxIdleConnsPerHost : Z;
  MaxConnsPerHost : Z;
  IdleConnTimeout : Z;
  DialContext : Dialer;
  TLSHandshakeTimeout : Z;
  ResponseHeaderTimeout : Z;
  ExpectContinueTimeout : Z;
  DisableCompression : bool;
  ForceAttemptHTTP2 : bool
}.

Record Client : Type := { Client_Transport : Transport; Timeout : Z }.

(** [http.Header] with [Set]; the keys this package sets are already
    in canonical form. *)
Definition Header : Type := gmap string (list string).
Definition Header_Set (h : Header) (key value : string) : Header :=
  <[key := [value]]> h.

Record Request : Type := { Request_Header : Header }.
End http.

(** A request editor receives the outgoing request and may change it. *)
Definition RequestEditorFn : Type := http.Request -> http.Request * option error.

(** Options of the generated clients. *)
Inductive ClientOption : Type :=
| GenWithHTTPClient (doer : http.Client)
| GenWithRequestEditorFn (fn : RequestEditorFn).

(** The body of a 400 answer. *)
Record ErrorBody : Type := { Error : option string }.

(** The response wrappers that the generator emits per operation share
    one shape: the status code and the decoded bodies, each nil unless
    the answer had that status and a JSON content type. *)
Record Response (A : Type) : Type := {
  StatusCode : Z;
  JSON200 : option A;
  JSON400 : option ErrorBody
}.
Arguments StatusCode {A} _.
Arguments JSON200 {A} _.
Arguments JSON400 {A} _.

(** [packages]: the generated client of packages.ecosyste.ms. *)
Module packages.

Record PackageWithRegistry : Type := {
  Purl : string;
  Name : string;
  Ecosystem : string
}.

(** In Go the fields of a request body and of a parameter record are
    pointers, nil for a field that is left out; this package sets every
    field it declares, so the fields are plain values here. *)
Record BulkLookupPackagesJSONRequestBody : Type := { Purls : list string }.

Record GetRegistryPackageVersionsParams : Type := {
  Page : Z;
  PerPage : Z
}.

(** The transport behind a [ClientWithResponses]: what the service
    answers to a request, given the calls it has seen. *)
Record ClientWithResponses `{Schema} : Type := {
  bulkLookupPackages :
    list Call -> list string -> error + Response (list PackageWithRegistry);
  getRegistryPackage :
    list Call -> string -> string -> error + Response Package;
  getRegistryPackageVersion :
    list Call -> string -> string -> string ->
    error + Response VersionWithDependencies;
  getRegistryPackageVersions :
    list Call -> string -> string -> Z -> Z -> error + Response (list Version);
  getRegistries :
    list Call -> error + Response (list Registry)
}.

Section methods.
Context `{Schema}.

Definition BulkLookupPackagesWithResponse (c : ClientWithResponses)
    (body : BulkLookupPackagesJSONRequestBody)
    : M (error + Response (list PackageWithRegistry)) :=
  fun h =>
    (bulkLookupPackages c h (Purls body),
     h ++ [CallBulkLookupPackages (Purls body)]).

Definition GetRegistryPackageWithResponse (c : ClientWithResponses)
    (registry name : string) : M (error + Response Package) :=
  fun h =>
    (getRegistryPackage c h registry name,
     h ++ [CallGetRegistryPackage registry name]).

Definition GetRegistryPackageVersionWithResponse (c : ClientWithResponses)
    (registry name version : string)
    : M (error + Response VersionWithDependencies) :=
  fun h =>
    (getRegistryPackageVersion c h registry name version,
     h ++ [CallGetRegistryPackageVersion registry name version]).

Definition GetRegistryPackageVersionsWithResponse (c : ClientWithResponses)
    (registry name : string) (params : GetRegistryPackageVersionsParams)
    : M (error + Response (list Version)) :=
  fun h =>
    (getRegistryPackageVersions c h registry name (Page params) (PerPage params),
     h ++ [CallGetRegistryPackageVersions registry name (Page params) (PerPage params)]).

Definition GetRegistriesWithResponse (c : ClientWithResponses)
    : M (error + Response (list Registry)) :=
  fun h => (getRegistries c h, h ++ [CallGetRegistries]).
End methods.

End packages.

(** [repos]: the generated client of repos.ecosyste.ms. *)
Module repos.

Record RepositoriesLookupParams : Type := { Url : string }.

Record ClientWithResponses `{Schema} : Type := {
  repositoriesLookup : list Call -> string -> error + Response Repository
}.

Definition RepositoriesLookupWithResponse `{Schema} (c : ClientWithResponses)
    (params : RepositoriesLookupParams) : M (error + Response Repository) :=
  fun h =>
    (repositoriesLookup c h (Url params), h ++ [CallRepositoriesLookup (Url params)]).

End repos.

(** ** client.go *)

Open Scope net_scope.

Definition DefaultPackagesServer := "https://packages.ecosyste.ms/api/v1".
Definition DefaultReposServer := "https://repos.ecosyste.ms/api/v1".
Definition DefaultTimeout : Z := 30 * http.Second.
Definition MaxBulkLookupSize : nat := 100.

Record Client `{Schema} : Type := {
  packagesClient : packages.ClientWithResponses;
  reposClient : repos.ClientWithResponses;
  userAgent : string
}.

Record clientConfig : Type := {
  cfg_packagesServer : string;
  cfg_reposServer : string;
  cfg_httpClient : http.Client;
  cfg_userAgent : string;
  cfg_fromEmail : string;
  cfg_apiKey : string
}.

(** An option updates the configuration under construction. *)
Definition Option : Type := clientConfig -> clientConfig.

Definition WithPackagesServer (server : string) : Option :=
  fun c => {| cfg_packagesServer := server;
              cfg_reposServer := cfg_reposServer c;
              cfg_httpClient := cfg_httpClient c;
              cfg_userAgent := cfg_userAgent c;
              cfg_fromEmail := cfg_fromEmail c;
              cfg_apiKey := cfg_apiKey c |}.

Definition WithReposServer (server : string) : Option :=
  fun c => {| cfg_packagesServer := cfg_packagesServer c;
              cfg_reposServer := server;
              cfg_httpClient := cfg_httpClient c;
              cfg_userAgent := cfg_userAgent c;
              cfg_fromEmail := cfg_fromEmail c;
              cfg_apiKey := cfg_apiKey c |}.

Definition WithHTTPClient (client : http.Client) : Option :=
  fun c => {| cfg_packagesServer := cfg_packagesServer c;
              cfg_reposServer := cfg_reposServer c;
              cfg_httpClient := client;
              cfg_userAgent := cfg_userAgent c;
              cfg_fromEmail := cfg_fromEmail c;
              cfg_apiKey := cfg_apiKey c |}.

(** [WithFrom] sets the From header (email address) for API requests. *)
Definition WithFrom (email : string) : Option :=
  fun c => {| cfg_packagesServer := cfg_packagesServer c;
              cfg_reposServer := cfg_reposServer c;
              cfg_httpClient := cfg_httpClient c;
              cfg_userAgent := cfg_userAgent c;
              cfg_fromEmail := email;
              cfg_apiKey := cfg_apiKey c |}.

(** [WithAPIKey] sets the API key for authenticated requests. *)
Definition WithAPIKey (key : string) : Option :=
  fun c => {| cfg_packagesServer := cfg_packagesServer c;
              cfg_reposServer := cfg_reposServer c;
              cfg_httpClient := cfg_httpClient c;
              cfg_userAgent := cfg_userAgent c;
              cfg_fromEmail := cfg_fromEmail c;
              cfg_apiKey := key |}.

(** [defaultHTTPClient] creates the HTTP client used unless the caller
    brings one. *)
Definition defaultHTTPClient : http.Client :=
  let transport := {|
    http.MaxIdleConns := 100;
    http.MaxIdleConnsPerHost := 10;
    http.MaxConnsPerHost := 100;
    http.IdleConnTimeout := 90 * http.Second;
    http.DialContext := {| http.Dialer_Timeout := 10 * http.Second;
                           http.KeepAlive := 30 * http.Second |};
    http.TLSHandshakeTimeout := 10 * http.Second;
    http.ResponseHeaderTimeout := 30 * http.Second;
    http.ExpectContinueTimeout := 1 * http.Second;
    http.DisableCompression := false;
    http.ForceAttemptHTTP2 := true
  |} in
  {| http.Client_Transport := transport; http.Timeout := DefaultTimeout |}.

(** The request editor that [NewClient] installs in both clients. *)
Definition addHeaders (cfg : clientConfig) : RequestEditorFn :=
  fun req =>
    let hd := http.Header_Set (http.Request_Header req) "User-Agent" (cfg_userAgent cfg) in
    let hd := if decide (cfg_fromEmail cfg <> "")
              then http.Header_Set hd "From" (cfg_fromEmail cfg) else hd in
    let hd := if decide (cfg_apiKey cfg <> "")
              then http.Header_Set hd "Authorization" ("Bearer " +:+ cfg_apiKey cfg)
              else hd in
    ({| http.Request_Header := hd |}, None).

Section client.
Context `{Schema}.

(** The constructors of the two generated clients.  Their code is not
    part of this package; whatever they do, they are computations that
    may touch the network and may fail. *)
Variable packages_NewClientWithResponses :
  string -> list ClientOption -> M (error + packages.ClientWithResponses).
Variable repos_NewClientWithResponses :
  string -> list ClientOption -> M (error + repos.ClientWithResponses).

(** [NewClient] creates a new ecosyste.ms API client. *)
Definition NewClient (userAgent : string) (opts : list Option)
    : M (option Client * option error) :=
  if decide (userAgent = "") then
    ret (None, Some (Errorf "userAgent is required"))
  else
    let cfg := {| cfg_packagesServer := DefaultPackagesServer;
                  cfg_reposServer := DefaultReposServer;
                  cfg_httpClient := defaultHTTPClient;
                  cfg_userAgent := userAgent;
                  cfg_fromEmail := "";
                  cfg_apiKey := "" |} in
    let cfg := foldl (fun cfg (opt : Option) => opt cfg) cfg opts in
    let* r := packages_NewClientWithResponses (cfg_packagesServer cfg)
              [GenWithHTTPClient (cfg_httpClient cfg);
               GenWithRequestEditorFn (addHeaders cfg)] in
    match r with
    | inl err => ret (None, Some (Errorf_w "creating packages client: %w" err))
    | inr pkgClient =>
      let* r := repos_NewClientWithResponses (cfg_reposServer cfg)
                [GenWithHTTPClient (cfg_httpClient cfg);
                 GenWithRequestEditorFn (addHeaders cfg)] in
      match r with
      | inl err => ret (None, Some (Errorf_w "creating repos client: %w" err))
      | inr repoClient =>
        ret (Some {| packagesClient := pkgClient;
                     reposClient := repoClient;
                     userAgent := cfg_userAgent cfg |}, None)
      end
    end.
End client.

Abbreviation results_map := (gmap string packages.PackageWithRegistry).

Section operations.
Context `{Schema}.

(** One turn of the loop of [BulkLookup] from index [i]: [inl] is the
    [return nil, err] that leaves the function, [inr] the results the
    next turn starts from. *)
Definition BulkLookup_batch (c : Client) (purls : list string) (i : nat)
    (results : results_map) : M (error + results_map) :=
  let end_ := i + MaxBulkLookupSize in
  let end_ := if decide (end_ > length purls) then length purls else end_ in
  let batch := slice purls i end_ in
  let* r := packages.BulkLookupPackagesWithResponse (packagesClient c)
            {| packages.Purls := batch |} in
  match r with
  | inl err => ret (inl (Errorf_w "bulk lookup: %w" err))
  | inr resp =>
    if decide (StatusCode resp <> http.StatusOK) then
      match JSON400 resp with
      | Some {| Error := Some msg |} =>
        ret (inl (Errorf_s "bulk lookup failed: %s" msg))
      | _ =>
        ret (inl (Errorf_d "bulk lookup failed with status %d" (StatusCode resp)))
      end
    else
      match JSON200 resp with
      | Some pkgs =>
        ret (inr (foldl (fun results pkg => <[packages.Purl pkg := pkg]> results)
                        results pkgs))
      | None => ret (inr results)
      end
  end.

(** [for i := 0; i < len(purls); i += MaxBulkLookupSize]. *)
Equations? BulkLookup_loop (c : Client) (purls : list string) (i : nat)
    (results : results_map) (h : list Call)
    : (option results_map * option error) * list Call
    by wf (length purls - i) lt :=
  BulkLookup_loop c purls i results h with decide (i < length purls) := {
    | right _ := ((Some results, None), h);
    | left _ with BulkLookup_batch c purls i results h := {
        | (inl err, h') := ((None, Some err), h');
        | (inr results', h') :=
            BulkLookup_loop c purls (i + MaxBulkLookupSize) results' h' } }.
Proof. unfold MaxBulkLookupSize. lia. Qed.

(** [BulkLookup] looks up multiple packages by PURL.  Returns a map
    keyed by PURL with package data.  PURLs are processed in batches
    of 100. *)
Definition BulkLookup (c : Client) (purls : list string)
    : M (option results_map * option error) :=
  if decide (length purls = 0) then ret (Some ∅, None)
  else BulkLookup_loop c purls 0 ∅.

(** [Lookup] looks up a single package by PURL. *)
Definition Lookup (c : Client) (purl : string)
    : M (option packages.PackageWithRegistry * option error) :=
  let* r := BulkLookup c [purl] in
  match r with
  | (_, Some err) => ret (None, Some err)
  | (results, None) => ret (results ≫= (.!! purl), None)
  end.

(** [LookupByRegistryAndName] looks up a package by registry and name. *)
Definition LookupByRegistryAndName (c : Client) (registry name : string)
    : M (option Package * option error) :=
  let* r := packages.GetRegistryPackageWithResponse (packagesClient c) registry name in
  match r with
  | inl err => ret (None, Some (Errorf_w "lookup package: %w" err))
  | inr resp =>
    if decide (StatusCode resp = http.StatusNotFound) then ret (None, None)
    else if decide (StatusCode resp <> http.StatusOK) then
      ret (None, Some (Errorf_d "lookup failed with status %d" (StatusCode resp)))
    else ret (JSON200 resp, None)
  end.

(** [GetVersion] gets a specific version of a package. *)
Definition GetVersion (c : Client) (registry name version : string)
    : M (option VersionWithDependencies * option error) :=
  let* r := packages.GetRegistryPackageVersionWithResponse (packagesClient c)
              registry name version in
  match r with
  | inl err => ret (None, Some (Errorf_w "get version: %w" err))
  | inr resp =>
    if decide (StatusCode resp = http.StatusNotFound) then ret (None, None)
    else if decide (StatusCode resp <> http.StatusOK) then
      ret (None, Some (Errorf_d "get version failed with status %d" (StatusCode resp)))
    else ret (JSON200 resp, None)
  end.

(** The [for { ... }] of [GetAllVersions].  Nothing in the code bounds
    the number of turns, so the loop carries fuel: [None] is a loop
    that is still running when the fuel is spent, [Some] what the
    function returns. *)
Fixpoint GetAllVersions_loop (fuel : nat) (c : Client) (registry name : string)
    (allVersions : list Version) (page perPage : Z)
    : M (option (list Version * option error)) :=
  match fuel with
  | O => ret None
  | S fuel =>
    let* r := packages.GetRegistryPackageVersionsWithResponse (packagesClient c)
                registry name
                {| packages.Page := page; packages.PerPage := perPage |} in
    match r with
    | inl err => ret (Some ([], Some (Errorf_w "get versions: %w" err)))
    | inr resp =>
      if decide (StatusCode resp = http.StatusNotFound) then ret (Some ([], None))
      else if decide (StatusCode resp <> http.StatusOK) then
        ret (Some ([], Some (Errorf_d "get versions failed with status %d"
                                      (StatusCode resp))))
      else
        match JSON200 resp with
        | None => ret (Some (allVersions, None))
        | Some versions =>
          if decide (length versions = 0) then ret (Some (allVersions, None))
          else
            let allVersions := allVersions ++ versions in
            if decide (Z.of_nat (length versions) < perPage)%Z then
              ret (Some (allVersions, None))
            else
              GetAllVersions_loop fuel c registry name allVersions
                                  (int_add page 1) perPage
        end
    end
  end.

(** [GetAllVersions] gets all versions of a package. *)
Definition GetAllVersions (fuel : nat) (c : Client) (registry name : string)
    : M (option (list Version * option error)) :=
  let allVersions : list Version := [] in
  let page := 1%Z in
  let perPage := 100%Z in
  GetAllVersions_loop fuel c registry name allVersions page perPage.

(** [GetRepository] looks up a repository by URL. *)
Definition GetRepository (c : Client) (url : string)
    : M (option Repository * option error) :=
  let* r := repos.RepositoriesLookupWithResponse (reposClient c)
              {| repos.Url := url |} in
  match r with
  | inl err => ret (None, Some (Errorf_w "lookup repository: %w" err))
  | inr resp =>
    if decide (StatusCode resp = http.StatusNotFound) then ret (None, None)
    else if decide (StatusCode resp <> http.StatusOK) then
      ret (None, Some (Errorf_d "lookup repository failed with status %d"
                                (StatusCode resp)))
    else ret (JSON200 resp, None)
  end.

(** [ListRegistries] returns all available registries. *)
Definition ListRegistries (c : Client) : M (list Registry * option error) :=
  let* r := packages.GetRegistriesWithResponse (packagesClient c) in
  match r with
  | inl err => ret ([], Some (Errorf_w "list registries: %w" err))
  | inr resp =>
    if decide (StatusCode resp <> http.StatusOK) then
      ret ([], Some (Errorf_d "list registries failed with status %d"
                              (StatusCode resp)))
    else
      match JSON200 resp with
      | None => ret ([], None)
      | Some registries => ret (registries, None)
      end
  end.

(** *** purl.go, the operations keyed by PURL *)

(** [LookupPURL] looks up a package by its PURL using the registry/name
    endpoint. *)
Definition LookupPURL (c : Client) (purl : packageurl.PackageURL)
    : M (option Package * option error) :=
  let registry := PURLToRegistry purl in
  if decide (registry = "") then
    ret (None, Some (Errorf_s "unsupported PURL type: %s" (packageurl.Type_ purl)))
  else
    let name := PURLToName purl in
    LookupByRegistryAndName c registry name.

(** [GetVersionPURL] gets a specific version using a PURL. *)
Definition GetVersionPURL (c : Client) (purl : packageurl.PackageURL)
    : M (option VersionWithDependencies * option error) :=
  if decide (packageurl.Version purl = "") then
    ret (None, Some (Errorf "PURL has no version"))
  else
    let registry := PURLToRegistry purl in
    if decide (registry = "") then
      ret (None, Some (Errorf_s "unsupported PURL type: %s" (packageurl.Type_ purl)))
    else
      let name := PURLToName purl in
      GetVersion c registry name (packageurl.Version purl).

(** [GetAllVersionsPURL] gets all versions for a package using a PURL. *)
Definition GetAllVersionsPURL (fuel : nat) (c : Client) (purl : packageurl.PackageURL)
    : M (option (list Version * option error)) :=
  let registry := PURLToRegistry purl in
  if decide (registry = "") then
    ret (Some ([], Some (Errorf_s "unsupported PURL type: %s" (packageurl.Type_ purl))))
  else
    let name := PURLToName purl in
    GetAllVersions fuel c registry name.

End operations.

(** ** Specification-side definitions *)

(** "Consecutive batches of at most 100 elements in input order": cut
    the first hundred off until nothing is left. *)
Equations? batches (purls : list string) : list (list string)
    by wf (length purls) lt :=
  batches [] := [];
  batches (p :: ps) := take 100 (p :: ps) :: batches (drop 100 (p :: ps)).
Proof. rewrite length_drop. lia. Qed.

Section specification.
Context `{Schema}.

(** The merge of the records of one answer into the results. *)
Definition merge_records (results : results_map)
    (pkgs : list packages.PackageWithRegistry) : results_map :=
  foldl (fun results pkg => <[packages.Purl pkg := pkg]> results) results pkgs.

(** A batch answer that lets [BulkLookup] go on. *)
Definition batch_ok (r : error + Response (list packages.PackageWithRegistry)) : Prop :=
  exists resp, r = inr resp /\ StatusCode resp = http.StatusOK.

(** "Each batch is one network round trip ... any single batch failure
    aborts the whole call": the bulk lookup as a walk over a list of
    batches. *)
Fixpoint BulkLookup_over (c : Client) (bs : list (list string))
    (results : results_map) (h : list Call)
    : (option results_map * option error) * list Call :=
  match bs with
  | [] => ((Some results, None), h)
  | b :: bs' =>
    let h' := h ++ [CallBulkLookupPackages b] in
    match packages.bulkLookupPackages (packagesClient c) h b with
    | inl err => ((None, Some (Errorf_w "bulk lookup: %w" err)), h')
    | inr resp =>
      if decide (StatusCode resp = http.StatusOK) then
        BulkLookup_over c bs' (merge_records results (default [] (JSON200 resp))) h'
      else
        match JSON400 resp ≫= Error with
        | Some msg => ((None, Some (Errorf_s "bulk lookup failed: %s" msg)), h')
        | None =>
          ((None, Some (Errorf_d "bulk lookup failed with status %d" (StatusCode resp))),
           h')
        end
    end
  end.

(** The calls that a walk over the batches [bs] issues when no batch
    fails. *)
Definition bulk_calls (bs : list (list string)) : list Call :=
  CallBulkLookupPackages <$> bs.

(** The answer of the service to batch number [k] of [bs], the
    batches before it having been sent from history [h]. *)
Definition bulk_answer (c : Client) (h : list Call) (bs : list (list string)) (k : nat)
    : option (error + Response (list packages.PackageWithRegistry)) :=
  b ← bs !! k;
  Some (packages.bulkLookupPackages (packagesClient c) (h ++ bulk_calls (take k bs)) b).

(** The records of all answers to the batches [bs], in the order of
    arrival. *)
Fixpoint bulk_records (c : Client) (bs : list (list string)) (h : list Call)
    : list packages.PackageWithRegistry :=
  match bs with
  | [] => []
  | b :: bs' =>
    match packages.bulkLookupPackages (packagesClient c) h b with
    | inl _ => []
    | inr resp =>
      default [] (JSON200 resp)
        ++ bulk_records c bs' (h ++ [CallBulkLookupPackages b])
    end
  end.

(** Modelled from the spec: the decoding of an answer into the
    response wrapper belongs to the generated client, which is not
    among the sources.  "400 with embedded error message": the body of
    a 400 answer is decoded into [JSON400], and only that of a 400
    answer. *)
Definition response_wf {A} (resp : Response A) : Prop :=
  is_Some (JSON400 resp) -> StatusCode resp = 400%Z.

(** Modelled from the spec: the decoding of the answer to a bulk
    lookup, which belongs to the generated client.  "200 = success, ...
    400 with embedded error message = a recoverable caller-facing error,
    anything else = generic failure": the records in the body are
    decoded for status 200 and the error body for status 400, and for
    no other status, whatever the body holds.  [records] and [message]
    are what the JSON body of the answer carries. *)
Definition bulk_response (status : Z)
    (records : option (list packages.PackageWithRegistry)) (message : option string)
    : Response (list packages.PackageWithRegistry) :=
  {| StatusCode := status;
     JSON200 := if decide (status = 200%Z) then records else None;
     JSON400 := if decide (status = 400%Z) then Some {| Error := message |} else None |}.

(** The requests for the pages [1 .. k] of the versions of a package. *)
Definition versions_calls (registry name : string) (k : nat) : list Call :=
  (fun p => CallGetRegistryPackageVersions registry name (Z.of_nat p) 100) <$> seq 1 k.

(** The answer of the service to the request for page [S k], the pages
    before it having been requested from history [h]. *)
Definition versions_answer (c : Client) (h : list Call) (registry name : string)
    (k : nat) : error + Response (list Version) :=
  packages.getRegistryPackageVersions (packagesClient c)
    (h ++ versions_calls registry name k) registry name (Z.of_nat (S k)) 100.

(** A page that makes [GetAllVersions] ask for the next one. *)
Definition full_page (r : error + Response (list Version)) (vs : list Version) : Prop :=
  exists resp, r = inr resp /\ StatusCode resp = http.StatusOK
               /\ JSON200 resp = Some vs /\ 100 <= length vs.

(** A page with fewer records than the page size, or with none. *)
Definition short_page (r : error + Response (list Version)) (vs : list Version) : Prop :=
  exists resp, r = inr resp /\ StatusCode resp = http.StatusOK
               /\ default [] (JSON200 resp) = vs /\ length vs < 100.

End specification.

(** ** Services to run the client against

    Small scripted services, used by the examples further down. *)

Module fixtures.

(** Every opaque record is a string. *)
Definition strings : Schema := {|
  Package := string;
  VersionWithDependencies := string;
  Version := string;
  Registry := string;
  Repository := string
|}.
#[local] Existing Instance strings.

Definition answer {A} (status : Z) (body : option A) : error + Response A :=
  inr {| StatusCode := status; JSON200 := body; JSON400 := None |}.

Definition refusal {A} (status : Z) (msg : string) : error + Response A :=
  inr {| StatusCode := status; JSON200 := None;
         JSON400 := Some {| Error := Some msg |} |}.

Definition record (purl : string) : packages.PackageWithRegistry :=
  {| packages.Purl := purl; packages.Name := purl; packages.Ecosystem := "" |}.

(** A service is given by its bulk lookup, its version pages and the
    status of its single-entity endpoints. *)
Definition service
    (bulk : list Call -> list string ->
            error + Response (list packages.PackageWithRegistry))
    (versions : list Call -> string -> string -> Z -> Z ->
                error + Response (list string))
    (status : Z) : @Client strings :=
  let packagesClient : @packages.ClientWithResponses strings := {|
    packages.bulkLookupPackages := bulk;
    packages.getRegistryPackage := fun _ _ _ => answer status None;
    packages.getRegistryPackageVersion := fun _ _ _ _ => answer status None;
    packages.getRegistryPackageVersions := versions;
    packages.getRegistries := fun _ => answer status None
  |} in
  let reposClient : @repos.ClientWithResponses strings := {|
    repos.repositoriesLookup := fun _ _ => answer status None
  |} in
  {| packagesClient := packagesClient;
     reposClient := reposClient;
     userAgent := "spec/1.0" |}.

(** The bulk lookup that files each package under the PURL it was
    asked for. *)
Definition echo (_ : list Call) (purls : list string)
    : error + Response (list packages.PackageWithRegistry) :=
  answer 200 (Some (record <$> purls)).

(** The text of a PURL up to its version. *)
Fixpoint unversioned (s : string) : string :=
  match s with
  | EmptyString => EmptyString
  | String a s' => if Ascii.eqb a "@" then EmptyString else String a (unversioned s')
  end.

(** The bulk lookup that files each package under its PURL without
    the version. *)
Definition canonical (_ : list Call) (purls : list string)
    : error + Response (list packages.PackageWithRegistry) :=
  answer 200 (Some ((fun purl => record (unversioned purl)) <$> purls)).

(** The bulk lookup that refuses the second request it sees. *)
Definition refusing (h : list Call) (purls : list string)
    : error + Response (list packages.PackageWithRegistry) :=
  if decide (length h = 1) then refusal 400 "too many requests"
  else echo h purls.

(** The bulk lookup whose connection breaks on the second request. *)
Definition breaking (h : list Call) (purls : list string)
    : error + Response (list packages.PackageWithRegistry) :=
  if decide (length h = 1) then inl (ExternalError "connection reset")
  else echo h purls.

(** 250 inputs. *)
Definition many_purls : list string :=
  (fun n => "pkg:gem/g" +:+ pretty n) <$> seq 0 250.

(** A package with 250 versions, served in pages. *)
Definition all_versions : list string := pretty <$> seq 1 250.

Definition paged (_ : list Call) (_ _ : string) (page perPage : Z)
    : error + Response (list string) :=
  answer 200 (Some (take (Z.to_nat perPage)
                         (drop (Z.to_nat ((page - 1) * perPage)) all_versions))).

(** The same package, gone by the time the second page is asked for. *)
Definition vanishing (h : list Call) (registry name : string) (page perPage : Z)
    : error + Response (list string) :=
  if decide (page = 1%Z) then paged h registry name page perPage
  else answer 404 None.

Definition no_versions (_ : list Call) (_ _ : string) (_ _ : Z)
    : error + Response (list string) := answer 404 None.

Definition echo_service := service echo no_versions 404.
Definition canonical_service := service canonical no_versions 404.
Definition refusing_service := service refusing no_versions 404.
Definition breaking_service := service breaking no_versions 404.
Definition paged_service := service echo paged 404.
Definition vanishing_service := service echo vanishing 404.
Definition failing_service := service echo no_versions 500.

(** Constructors of the generated clients that hand out the clients of
    a given service. *)
Definition packages_New (c : @Client strings)
    (_ : string) (_ : list ClientOption)
    : M (error + @packages.ClientWithResponses strings) :=
  ret (inr (packagesClient c)).

Definition repos_New (c : @Client strings)
    (_ : string) (_ : list ClientOption)
    : M (error + @repos.ClientWithResponses strings) :=
  ret (inr (reposClient c)).

(** A stand-in for [packageurl.FromString] that reads
    [pkg:type/name@version]. *)
Fixpoint until (stop : ascii) (s : string) : string * string :=
  match s with
  | EmptyString => (EmptyString, EmptyString)
  | String a s' =>
    if Ascii.eqb a stop then (EmptyString, s')
    else let '(l, r) := until stop s' in (String a l, r)
  end.

Definition FromString (s : string) : packageurl.PackageURL * option error :=
  let '(scheme, rest) := until ":" s in
  let '(type, rest) := until "/" rest in
  let '(name, version) := until "@" rest in
  if decide (scheme = "pkg" /\ type <> "" /\ name <> "") then
    (packageurl.mkPackageURL type "" name version [] "", None)
  else
    (packageurl.mkPackageURL "" "" "" "" [] "",
     Some (ExternalError "purl is missing type or name")).

End fixtures.

(** ** Specification-side definitions for the rest of the package *)

(** The record that a merge leaves under [key]: the last record of the
    list whose [Purl] is [key]. *)
Definition last_with_purl (key : string) (pkgs : list packages.PackageWithRegistry)
    : option packages.PackageWithRegistry :=
  last (filter (fun pkg => packages.Purl pkg = key) pkgs).

(** The number of requests that [n] PURLs need. *)
Definition batch_count (n : nat) : nat := (n + 99) / 100.

(** An option list written down: which setting each option changes. *)
Inductive setting : Type :=
| SetPackagesServer (server : string)
| SetReposServer (server : string)
| SetHTTPClient (client : http.Client)
| SetFrom (email : string)
| SetAPIKey (key : string).

Definition option_of (s : setting) : Option :=
  match s with
  | SetPackagesServer server => WithPackagesServer server
  | SetReposServer server => WithReposServer server
  | SetHTTPClient client => WithHTTPClient client
  | SetFrom email => WithFrom email
  | SetAPIKey key => WithAPIKey key
  end.

Definition packagesServer_of (s : setting) : option string :=
  match s with SetPackagesServer server => Some server | _ => None end.
Definition reposServer_of (s : setting) : option string :=
  match s with SetReposServer server => Some server | _ => None end.
Definition httpClient_of (s : setting) : option http.Client :=
  match s with SetHTTPClient client => Some client | _ => None end.
Definition fromEmail_of (s : setting) : option string :=
  match s with SetFrom email => Some email | _ => None end.
Definition apiKey_of (s : setting) : option string :=
  match s with SetAPIKey key => Some key | _ => None end.

(** The value that the last option of one kind gives, or the default. *)
Definition given {A} (pick : setting -> option A) (d : A) (ss : list setting) : A :=
  default d (last (omap pick ss)).

(** The options of a list, applied from left to right. *)
Definition apply_options (cfg : clientConfig) (opts : list Option) : clientConfig :=
  foldl (fun cfg (opt : Option) => opt cfg) cfg opts.

(** More services for the examples. *)
Module fixtures_more.
Import fixtures.
#[local] Existing Instance strings.

(** A package whose every page is full. *)
Definition endless (_ : list Call) (_ _ : string) (_ _ : Z)
    : error + Response (list string) :=
  answer 200 (Some (replicate 100 "1.0.0")).

(** A package whose second page cannot be served. *)
Definition overloaded (h : list Call) (registry name : string) (page perPage : Z)
    : error + Response (list string) :=
  if decide (page = 1%Z) then paged h registry name page perPage
  else answer 503 None.

(** A package whose second page is lost on the way. *)
Definition dropping (h : list Call) (registry name : string) (page perPage : Z)
    : error + Response (list string) :=
  if decide (page = 1%Z) then paged h registry name page perPage
  else inl (ExternalError "connection reset").

(** The bulk lookup that knows each package from two ecosystems. *)
Definition twofold (_ : list Call) (purls : list string)
    : error + Response (list packages.PackageWithRegistry) :=
  answer 200 (Some (purls ≫= fun purl =>
    [ {| packages.Purl := purl; packages.Name := purl; packages.Ecosystem := "first" |};
      {| packages.Purl := purl; packages.Name := purl; packages.Ecosystem := "second" |} ])).

(** A package that exists and has no version yet. *)
Definition unreleased (_ : list Call) (_ _ : string) (_ _ : Z)
    : error + Response (list string) :=
  answer 200 (Some []).

(** The bulk lookup that rejects every request with status 422 and a
    message in the body. *)
Definition unprocessable (_ : list Call) (_ : list string)
    : error + Response (list packages.PackageWithRegistry) :=
  inr (bulk_response 422 None (Some "purls must be an array")).

Definition unprocessable_service := service unprocessable no_versions 404.
Definition unreleased_service := service echo unreleased 404.
Definition endless_service := service echo endless 404.
Definition overloaded_service := service echo overloaded 404.
Definition dropping_service := service echo dropping 404.
Definition twofold_service := service twofold no_versions 404.
Definition created_service := service echo no_versions 201.

(** A service whose single-entity endpoints answer 200 with a body. *)
Definition found_service : @Client strings :=
  let packagesClient : @packages.ClientWithResponses strings := {|
    packages.bulkLookupPackages := echo;
    packages.getRegistryPackage := fun _ _ name => answer 200 (Some name);
    packages.getRegistryPackageVersion := fun _ _ _ version => answer 200 (Some version);
    packages.getRegistryPackageVersions := no_versions;
    packages.getRegistries := fun _ => answer 200 (Some ["rubygems.org"; "npmjs.org"])
  |} in
  let reposClient : @repos.ClientWithResponses strings := {|
    repos.repositoriesLookup := fun _ url => answer 200 (Some url)
  |} in
  {| packagesClient := packagesClient;
     reposClient := reposClient;
     userAgent := "spec/1.0" |}.

(** A service that is down. *)
Definition down_service : @Client strings :=
  let down {A} : error + Response A := inl (ExternalError "connection refused") in
  let packagesClient : @packages.ClientWithResponses strings := {|
    packages.bulkLookupPackages := fun _ _ => down;
    packages.getRegistryPackage := fun _ _ _ => down;
    packages.getRegistryPackageVersion := fun _ _ _ _ => down;
    packages.getRegistryPackageVersions := fun _ _ _ _ _ => down;
    packages.getRegistries := fun _ => down
  |} in
  let reposClient : @repos.ClientWithResponses strings := {|
    repos.repositoriesLookup := fun _ _ => down
  |} in
  {| packagesClient := packagesClient;
     reposClient := reposClient;
     userAgent := "spec/1.0" |}.



End fixtures_more.

(** * Properties *)

(** ** The PURL mapper *)

Section purl_mapper.
Implicit Types purl : packageurl.PackageURL.

(** The empty registry means that the type is not served: either the
    table has no entry, or the entry is the empty string. *)
Lemma PURLToRegistry_lookup purl :
  PURLToRegistry purl = default "" (purlTypeToRegistry !! packageurl.Type_ purl).
Proof. reflexivity. Qed.

(** The entries that the test suite of the package checks. *)
Example PURLToRegistry_tests :
  (fun t => PURLToRegistry (packageurl.mkPackageURL t "" "" "" [] ""))
    <$> ["npm"; "gem"; "pypi"; "maven"; "cargo"; "golang"; "nuget"; "composer";
         "hex"; "pub"; "apk"; "docker"; "brew"; "julia"]
  = ["npmjs.org"; "rubygems.org"; "pypi.org"; "repo1.maven.org"; "crates.io";
     "proxy.golang.org"; "nuget.org"; "packagist.org"; "hex.pm"; "pub.dev";
     "alpine-edge"; "hub.docker.com"; "formulae.brew.sh"; "juliahub.com"].
Proof. vm_compute. reflexivity. Qed.

(** C7: [PURLToRegistry] depends on the ecosystem type alone; it
    returns the registry that the table holds for the type, and the
    empty string both for a type that the table does not hold and for
    each of the types generic, github, bitbucket, bitnami, huggingface,
    oci and rpm. *)
Theorem PURLToRegistry_table :
  (forall purl purl',
      packageurl.Type_ purl = packageurl.Type_ purl' ->
      PURLToRegistry purl = PURLToRegistry purl')
  /\ (forall purl registry,
         purlTypeToRegistry !! packageurl.Type_ purl = Some registry ->
         PURLToRegistry purl = registry)
  /\ (forall purl,
         purlTypeToRegistry !! packageurl.Type_ purl = None ->
         PURLToRegistry purl = "")
  /\ (forall purl,
         packageurl.Type_ purl ∈
           [packageurl.TypeGeneric; packageurl.TypeGithub; packageurl.TypeBitbucket;
            packageurl.TypeBitnami; packageurl.TypeHuggingface; packageurl.TypeOCI;
            packageurl.TypeRPM] ->
         PURLToRegistry purl = "").
Proof.
  repeat split.
  - intros purl purl' Heq. unfold PURLToRegistry. now rewrite Heq.
  - intros purl registry Hin. unfold PURLToRegistry, go_index. now rewrite Hin.
  - intros purl Hout. unfold PURLToRegistry, go_index. now rewrite Hout.
  - intros purl Hin. unfold PURLToRegistry.
    repeat (apply elem_of_cons in Hin as [-> | Hin]; [vm_compute; reflexivity |]).
    now apply elem_of_nil in Hin.
Qed.

(** C6: [PURLToName] is the bare name without a namespace, and with
    one it is namespace ":" name for maven, the bare name for apk and
    namespace "/" name for every other type. *)
Theorem PURLToName_rule purl :
  (packageurl.Namespace purl = "" -> PURLToName purl = packageurl.Name purl)
  /\ (packageurl.Namespace purl <> "" ->
      packageurl.Type_ purl = packageurl.TypeMaven ->
      PURLToName purl = packageurl.Namespace purl +:+ ":" +:+ packageurl.Name purl)
  /\ (packageurl.Type_ purl = packageurl.TypeApk ->
      PURLToName purl = packageurl.Name purl)
  /\ (packageurl.Namespace purl <> "" ->
      packageurl.Type_ purl <> packageurl.TypeMaven ->
      packageurl.Type_ purl <> packageurl.TypeApk ->
      PURLToName purl = packageurl.Namespace purl +:+ "/" +:+ packageurl.Name purl).
Proof.
  unfold PURLToName. repeat split.
  - intros Hns. now rewrite decide_True.
  - intros Hns Hty. rewrite decide_False by assumption. now rewrite decide_True.
  - intros Hty. destruct (decide (packageurl.Namespace purl = "")); [reflexivity |].
    rewrite decide_False by (rewrite Hty; discriminate).
    now rewrite decide_True.
  - intros Hns Hmaven Hapk. now rewrite !decide_False.
Qed.

Lemma HasPrefix_app pre s : HasPrefix (pre +:+ s) pre = true.
Proof.
  unfold HasPrefix. induction pre as [| a pre IH]; simpl.
  - now destruct s.
  - destruct (Ascii.ascii_dec a a); [exact IH | congruence].
Qed.

(** C8: a text without the scheme parses like the same text with the
    scheme in front, whatever the parser of the library does; so the
    bare and the prefixed spelling of the rails gem give the same
    result, which is the gem rails at 7.0.0 once the parser reads the
    prefixed spelling that way. *)
Theorem ParsePURL_scheme FromString :
  (forall s, HasPrefix s "pkg:" = false ->
             ParsePURL FromString s = ParsePURL FromString ("pkg:" +:+ s))
  /\ ParsePURL FromString "gem/rails@7.0.0" = ParsePURL FromString "pkg:gem/rails@7.0.0"
  /\ (forall purl,
         FromString "pkg:gem/rails@7.0.0" = (purl, None) ->
         packageurl.Type_ purl = "gem" -> packageurl.Name purl = "rails" ->
         packageurl.Version purl = "7.0.0" ->
         exists purl',
           ParsePURL FromString "gem/rails@7.0.0" = (purl', None)
           /\ ParsePURL FromString "pkg:gem/rails@7.0.0" = (purl', None)
           /\ packageurl.Type_ purl' = "gem" /\ packageurl.Name purl' = "rails"
           /\ packageurl.Version purl' = "7.0.0").
Proof.
  split; [| split].
  - intros s Hs. unfold ParsePURL. rewrite Hs, HasPrefix_app. reflexivity.
  - reflexivity.
  - intros purl Hparse Hty Hname Hver. exists purl.
    unfold ParsePURL. cbn. rewrite Hparse. auto.
Qed.
End purl_mapper.

(** ** Single-entity lookups *)

Section single_entity.
Context `{Schema}.
Implicit Types (c : Client) (h : list Call).

(** C5: in [LookupByRegistryAndName], [GetVersion] and [GetRepository]
    an answer with status 404 gives no record and no error, and an
    answer with any other status outside 200..299 gives no record and
    an error that carries the status code. *)
Theorem single_entity_status c h :
  (forall registry name resp,
      packages.getRegistryPackage (packagesClient c) h registry name = inr resp ->
      let h' := h ++ [CallGetRegistryPackage registry name] in
      (StatusCode resp = 404 ->
       LookupByRegistryAndName c registry name h = ((None, None), h'))
      /\ (StatusCode resp <> 404 -> ~ (200 <= StatusCode resp < 300) ->
          LookupByRegistryAndName c registry name h
          = ((None, Some (Errorf_d "lookup failed with status %d" (StatusCode resp))),
             h')))%Z
  /\ (forall registry name version resp,
      packages.getRegistryPackageVersion (packagesClient c) h registry name version
        = inr resp ->
      let h' := h ++ [CallGetRegistryPackageVersion registry name version] in
      (StatusCode resp = 404 ->
       GetVersion c registry name version h = ((None, None), h'))
      /\ (StatusCode resp <> 404 -> ~ (200 <= StatusCode resp < 300) ->
          GetVersion c registry name version h
          = ((None, Some (Errorf_d "get version failed with status %d"
                                   (StatusCode resp))), h')))%Z
  /\ (forall url resp,
      repos.repositoriesLookup (reposClient c) h url = inr resp ->
      let h' := h ++ [CallRepositoriesLookup url] in
      (StatusCode resp = 404 ->
       GetRepository c url h = ((None, None), h'))
      /\ (StatusCode resp <> 404 -> ~ (200 <= StatusCode resp < 300) ->
          GetRepository c url h
          = ((None, Some (Errorf_d "lookup repository failed with status %d"
                                   (StatusCode resp))), h')))%Z.
Proof.
  repeat split; intros.
  all: unfold LookupByRegistryAndName, GetVersion, GetRepository, bind, ret,
         packages.GetRegistryPackageWithResponse,
         packages.GetRegistryPackageVersionWithResponse,
         repos.RepositoriesLookupWithResponse; simpl.
  all: match goal with Hr : _ = inr _ |- _ => rewrite Hr end.
  all: unfold http.StatusNotFound, http.StatusOK.
  all: try (rewrite decide_True by assumption; reflexivity).
  all: rewrite decide_False by assumption; rewrite decide_True by lia; reflexivity.
Qed.
End single_entity.

(** ** Construction *)

Section construction.
Context `{Schema}.
Variable packages_New :
  string -> list ClientOption -> M (error + packages.ClientWithResponses).
Variable repos_New :
  string -> list ClientOption -> M (error + repos.ClientWithResponses).

(** C9: with the empty user agent [NewClient] returns the error
    "userAgent is required" and no client, and it does so without
    running an option or a constructor of the generated clients, so
    the list of calls is as it was; with any other user agent that
    error is not the outcome, and the client is built whenever both
    constructors succeed. *)
Theorem NewClient_userAgent opts h :
  NewClient packages_New repos_New "" opts h
    = ((None, Some (Errorf "userAgent is required")), h)
  /\ (forall ua, ua <> "" ->
        (NewClient packages_New repos_New ua opts h).1.2
          <> Some (Errorf "userAgent is required"))
  /\ (forall ua, ua <> "" ->
        (forall server o h1, exists pc, packages_New server o h1 = (inr pc, h1)) ->
        (forall server o h1, exists rc, repos_New server o h1 = (inr rc, h1)) ->
        exists cl, NewClient packages_New repos_New ua opts h = ((Some cl, None), h)).
Proof.
  split; [reflexivity | split].
  - intros ua Hua. unfold NewClient, bind, ret.
    rewrite decide_False by assumption.
    destruct (packages_New _ _ h) as [[e | pc] h1]; simpl; [discriminate |].
    destruct (repos_New _ _ h1) as [[e | rc] h2]; simpl; discriminate.
  - intros ua Hua Hp Hr. unfold NewClient, bind, ret.
    rewrite decide_False by assumption.
    match goal with |- context [packages_New ?s ?o h] =>
      destruct (Hp s o h) as [pc ->] end.
    match goal with |- context [repos_New ?s ?o h] =>
      destruct (Hr s o h) as [rc ->] end.
    eexists. reflexivity.
Qed.
End construction.

(** ** Pagination *)

Section pagination.
Context `{Schema}.
Implicit Types (c : Client) (h : list Call) (pages : list (list Version)).

Lemma int_add_small (x : Z) : (0 <= x -> x + 1 < 2 ^ 63 -> int_add x 1 = x + 1)%Z.
Proof.
  intros Hlo Hhi. unfold int_add, int_wrap.
  rewrite Z.mod_small by lia. lia.
Qed.

Lemma versions_calls_S registry name k :
  versions_calls registry name (S k)
  = versions_calls registry name k
      ++ [CallGetRegistryPackageVersions registry name (Z.of_nat (S k)) 100].
Proof. unfold versions_calls. now rewrite seq_S, fmap_app. Qed.

(** One turn of the loop, whatever the answer. *)
Lemma GetAllVersions_loop_S fuel c registry name acc page perPage h :
  GetAllVersions_loop (S fuel) c registry name acc page perPage h
  = let h' := h ++ [CallGetRegistryPackageVersions registry name page perPage] in
    match packages.getRegistryPackageVersions (packagesClient c) h registry name
            page perPage with
    | inl err => (Some ([], Some (Errorf_w "get versions: %w" err)), h')
    | inr resp =>
      if decide (StatusCode resp = http.StatusNotFound) then (Some ([], None), h')
      else if decide (StatusCode resp <> http.StatusOK) then
        (Some ([], Some (Errorf_d "get versions failed with status %d"
                                  (StatusCode resp))), h')
      else
        match JSON200 resp with
        | None => (Some (acc, None), h')
        | Some versions =>
          if decide (length versions = 0) then (Some (acc, None), h')
          else if decide (Z.of_nat (length versions) < perPage)%Z then
            (Some (acc ++ versions, None), h')
          else
            GetAllVersions_loop fuel c registry name (acc ++ versions)
                                (int_add page 1) perPage h'
        end
    end.
Proof.
  simpl. unfold bind, ret, packages.GetRegistryPackageVersionsWithResponse. simpl.
  destruct (packages.getRegistryPackageVersions _ _ _ _ _ _) as [err | resp];
    [reflexivity |].
  repeat case_decide; try reflexivity.
  destruct (JSON200 resp) as [versions |]; [| reflexivity].
  repeat case_decide; reflexivity.
Qed.

(** Full pages are appended and the loop moves on to the next page. *)
Lemma GetAllVersions_loop_full c registry name h pages :
  forall k acc fuel,
    (Z.of_nat (k + length pages) < 2 ^ 63 - 1)%Z ->
    (forall j vs, pages !! j = Some vs ->
                  full_page (versions_answer c h registry name (k + j)) vs) ->
    GetAllVersions_loop (length pages + fuel) c registry name acc
      (Z.of_nat (S k)) 100 (h ++ versions_calls registry name k)
    = GetAllVersions_loop fuel c registry name (acc ++ concat pages)
        (Z.of_nat (S (k + length pages))) 100
        (h ++ versions_calls registry name (k + length pages)).
Proof.
  induction pages as [| vs pages IH]; intros k acc fuel Hbound Hfull.
  - simpl. now rewrite app_nil_r, Nat.add_0_r.
  - destruct (Hfull 0 vs eq_refl) as (resp & Hresp & Hstatus & Hbody & Hlen).
    rewrite Nat.add_0_r in Hresp. unfold versions_answer in Hresp.
    cbn [length Nat.add]. rewrite GetAllVersions_loop_S. cbv zeta.
    rewrite Hresp, Hstatus, Hbody.
    rewrite decide_False by (unfold http.StatusOK, http.StatusNotFound; lia).
    rewrite decide_False by tauto.
    rewrite decide_False by lia.
    rewrite decide_False by lia.
    rewrite int_add_small by (cbn [length] in Hbound; lia).
    replace (Z.of_nat (S k) + 1)%Z with (Z.of_nat (S (S k))) by lia.
    rewrite <- app_assoc, <- versions_calls_S.
    rewrite IH.
    + cbn [concat length]. rewrite app_assoc.
      now replace (S k + length pages) with (k + S (length pages)) by lia.
    + cbn [length] in Hbound. lia.
    + intros j vs' Hj. replace (S k + j) with (k + S j) by lia.
      now apply Hfull.
Qed.

Lemma GetAllVersions_skip c registry name h pages fuel :
  (Z.of_nat (length pages) < 2 ^ 63 - 1)%Z ->
  (forall k vs, pages !! k = Some vs ->
                full_page (versions_answer c h registry name k) vs) ->
  GetAllVersions (length pages + fuel) c registry name h
  = GetAllVersions_loop fuel c registry name (concat pages)
      (Z.of_nat (S (length pages))) 100
      (h ++ versions_calls registry name (length pages)).
Proof.
  intros Hbound Hfull. unfold GetAllVersions.
  pose proof (GetAllVersions_loop_full c registry name h pages 0 [] fuel) as Hskip.
  change (versions_calls registry name 0) with (@nil Call) in Hskip.
  rewrite app_nil_r in Hskip. apply Hskip; assumption.
Qed.

(** C4: when the service answers the requests for pages 1 to n with
    full pages and the request for page n+1 with a page of fewer than
    100 records (or none), [GetAllVersions] asks for exactly the pages
    1 to n+1, each with page size 100 and in this order, and returns
    the records of these pages in the order of the requests, without
    error; as long as the pages are full it keeps asking. *)
Theorem GetAllVersions_pages c registry name h pages last :
  (Z.of_nat (length pages) < 2 ^ 63 - 1)%Z ->
  (forall k vs, pages !! k = Some vs ->
                full_page (versions_answer c h registry name k) vs) ->
  short_page (versions_answer c h registry name (length pages)) last ->
  (forall fuel, length pages < fuel ->
     GetAllVersions fuel c registry name h
     = (Some (concat pages ++ last, None),
        h ++ versions_calls registry name (S (length pages))))
  /\ (forall fuel, fuel <= length pages ->
        GetAllVersions fuel c registry name h
        = (None, h ++ versions_calls registry name fuel)).
Proof.
  intros Hbound Hfull Hshort. split.
  - intros fuel Hfuel.
    destruct Hshort as (resp & Hresp & Hstatus & Hbody & Hlen).
    replace fuel with (length pages + S (fuel - S (length pages))) by lia.
    rewrite GetAllVersions_skip by assumption.
    rewrite GetAllVersions_loop_S. cbv zeta.
    unfold versions_answer in Hresp. rewrite Hresp, Hstatus.
    rewrite decide_False by (unfold http.StatusOK, http.StatusNotFound; lia).
    rewrite decide_False by tauto.
    rewrite versions_calls_S, app_assoc.
    destruct (JSON200 resp) as [versions |]; simpl in Hbody; subst last.
    + case_decide as Hzero.
      * apply nil_length_inv in Hzero. subst versions.
        now rewrite app_nil_r.
      * now rewrite decide_True by lia.
    + now rewrite app_nil_r.
  - intros fuel Hfuel.
    pose proof (GetAllVersions_skip c registry name h (take fuel pages) 0) as Hskip.
    rewrite length_take, Nat.min_l, Nat.add_0_r in Hskip by assumption.
    rewrite Hskip; [reflexivity | lia |].
    intros j vs Hj. apply Hfull.
    apply lookup_take_Some in Hj. tauto.
Qed.

(** C10: when the service answers the requests for pages 1 to n with
    full pages and the request for page n+1 with status 404, then
    [GetAllVersions] returns the nil slice and no error: the records
    of the n pages are dropped.  The first page is the case n = 0. *)
Theorem GetAllVersions_not_found c registry name h pages resp :
  (Z.of_nat (length pages) < 2 ^ 63 - 1)%Z ->
  (forall k vs, pages !! k = Some vs ->
                full_page (versions_answer c h registry name k) vs) ->
  versions_answer c h registry name (length pages) = inr resp ->
  StatusCode resp = 404%Z ->
  forall fuel, length pages < fuel ->
    GetAllVersions fuel c registry name h
    = (Some ([], None), h ++ versions_calls registry name (S (length pages))).
Proof.
  intros Hbound Hfull Hresp Hstatus fuel Hfuel.
  replace fuel with (length pages + S (fuel - S (length pages))) by lia.
  rewrite GetAllVersions_skip by assumption.
  rewrite GetAllVersions_loop_S. cbv zeta.
  unfold versions_answer in Hresp. rewrite Hresp.
  rewrite decide_True by exact Hstatus.
  now rewrite versions_calls_S, app_assoc.
Qed.
End pagination.

(** ** Bulk lookup *)

Section bulk_lookup.
Context `{Schema}.
Implicit Types (c : Client) (h : list Call) (purls : list string).

Lemma batches_step purls :
  purls <> [] -> batches purls = take 100 purls :: batches (drop 100 purls).
Proof. destruct purls as [| p ps]; [congruence |]. intros _. now simp batches. Qed.

Lemma slice_batch purls i :
  i < length purls ->
  slice purls i (if decide (i + MaxBulkLookupSize > length purls)
                 then length purls else i + MaxBulkLookupSize)
  = take 100 (drop i purls).
Proof.
  intros Hi. unfold slice, MaxBulkLookupSize. case_decide as Hend.
  - rewrite !take_ge; [reflexivity | |]; rewrite length_drop; lia.
  - now replace (i + 100 - i) with 100 by lia.
Qed.

(** A walk that starts with the batch at index [i] does what one turn
    of the loop does, and goes on from there. *)
Lemma BulkLookup_over_cons c purls i bs results h :
  i < length purls ->
  BulkLookup_over c (take 100 (drop i purls) :: bs) results h
  = match BulkLookup_batch c purls i results h with
    | (inl err, h') => ((None, Some err), h')
    | (inr results', h') => BulkLookup_over c bs results' h'
    end.
Proof.
  intros Hi. unfold BulkLookup_batch, bind, ret,
    packages.BulkLookupPackagesWithResponse.
  cbn [packages.Purls]. rewrite slice_batch by assumption.
  cbn [BulkLookup_over].
  destruct (packages.bulkLookupPackages _ _ _) as [err | resp]; [reflexivity |].
  destruct (decide (StatusCode resp = http.StatusOK)) as [Hok | Hko].
  - rewrite decide_False by tauto.
    now destruct (JSON200 resp).
  - rewrite decide_True by assumption.
    now destruct (JSON400 resp) as [[[msg |]] |].
Qed.

Lemma drop_nonempty purls i : i < length purls -> drop i purls <> [].
Proof.
  intros Hi Hnil. apply (f_equal length) in Hnil.
  rewrite length_drop in Hnil. simpl in Hnil. lia.
Qed.

(** The loop of [BulkLookup] from index [i] is the walk over the
    batches of the rest of the input. *)
Lemma BulkLookup_loop_over c purls i results h :
  BulkLookup_loop c purls i results h
  = BulkLookup_over c (batches (drop i purls)) results h.
Proof.
  funelim (BulkLookup_loop c purls i results h).
  - rewrite drop_ge by lia. now simp batches.
  - rewrite batches_step by now apply drop_nonempty.
    rewrite BulkLookup_over_cons by assumption.
    match goal with Hb : BulkLookup_batch _ _ _ _ _ = _ |- _ => now rewrite Hb end.
  - rewrite batches_step by now apply drop_nonempty.
    rewrite BulkLookup_over_cons by assumption.
    match goal with Hb : BulkLookup_batch _ _ _ _ _ = _ |- _ => rewrite Hb end.
    rewrite drop_drop.
    match goal with
      IH : BulkLookup_loop _ _ _ _ _ = BulkLookup_over _ _ _ _ |- _ => rewrite IH
    end.
    reflexivity.
Qed.

(** [BulkLookup] is the walk over the batches of its input. *)
Lemma BulkLookup_over_batches c purls h :
  BulkLookup c purls h = BulkLookup_over c (batches purls) ∅ h.
Proof.
  unfold BulkLookup. case_decide as Hlen.
  - apply nil_length_inv in Hlen. subst purls. now simp batches.
  - now rewrite BulkLookup_loop_over.
Qed.

(** *** The batches *)

Lemma batches_concat purls : concat (batches purls) = purls.
Proof.
  funelim (batches purls); [reflexivity |].
  cbn [concat]. change (drop 100 (p :: ps)) with (drop 99 ps).
  match goal with IH : concat _ = _ |- _ => rewrite IH end.
  exact (take_drop 100 (p :: ps)).
Qed.

Lemma batches_bounds purls :
  Forall (fun b => 0 < length b <= 100) (batches purls).
Proof.
  funelim (batches purls); constructor; [| assumption].
  rewrite length_take. cbn [length]. lia.
Qed.

Lemma batches_250 purls :
  length purls = 250 ->
  exists b1 b2 b3,
    batches purls = [b1; b2; b3] /\ purls = b1 ++ b2 ++ b3
    /\ length b1 = 100 /\ length b2 = 100 /\ length b3 = 50.
Proof.
  intros Hlen.
  exists (take 100 purls), (take 100 (drop 100 purls)), (drop 200 purls).
  repeat split.
  - rewrite batches_step by (intros ->; discriminate).
    rewrite batches_step by (apply drop_nonempty; lia).
    rewrite drop_drop.
    rewrite batches_step by (apply drop_nonempty; lia).
    rewrite drop_drop. cbn [Nat.add].
    rewrite (drop_ge purls 300) by lia. simp batches.
    now rewrite (take_ge (drop 200 purls)) by (rewrite length_drop; lia).
  - rewrite app_assoc, take_take_drop. now rewrite take_drop.
  - rewrite length_take. lia.
  - rewrite length_take, length_drop. lia.
  - rewrite length_drop. lia.
Qed.

(** *** The walk over the batches *)

Lemma bulk_answer_0 c h b bs :
  bulk_answer c h (b :: bs) 0 = Some (packages.bulkLookupPackages (packagesClient c) h b).
Proof. unfold bulk_answer. cbn. now rewrite app_nil_r. Qed.

Lemma bulk_answer_S c h b bs k :
  bulk_answer c h (b :: bs) (S k) = bulk_answer c (h ++ [CallBulkLookupPackages b]) bs k.
Proof. unfold bulk_answer. cbn. now rewrite <- app_assoc. Qed.

(** Whatever the answers, the calls are those for an initial segment
    of the batches, in order: all of them unless an error is returned. *)
Lemma BulkLookup_over_calls c bs :
  forall results h,
  exists k, (BulkLookup_over c bs results h).2 = h ++ bulk_calls (take k bs)
            /\ ((BulkLookup_over c bs results h).1.2 = None -> k = length bs).
Proof.
  induction bs as [| b bs IH]; intros results h.
  - exists 0. cbn. now rewrite app_nil_r.
  - cbn [BulkLookup_over].
    destruct (packages.bulkLookupPackages _ _ _) as [err | resp].
    { exists 1. cbn. rewrite take_0. split; [reflexivity | discriminate]. }
    case_decide.
    + destruct (IH (merge_records results (default [] (JSON200 resp)))
                   (h ++ [CallBulkLookupPackages b])) as (k & Hcalls & Hall).
      exists (S k). rewrite Hcalls. cbn. rewrite <- app_assoc.
      split; [reflexivity | intros Hnone; now rewrite Hall].
    + exists 1. cbn. rewrite take_0.
      destruct (JSON400 resp ≫= Error); split; (reflexivity || discriminate).
Qed.

(** When no batch fails, all batches are sent and all records merged. *)
Lemma BulkLookup_over_ok c bs :
  forall results h,
    (forall k r, bulk_answer c h bs k = Some r -> batch_ok r) ->
    BulkLookup_over c bs results h
    = ((Some (merge_records results (bulk_records c bs h)), None), h ++ bulk_calls bs).
Proof.
  induction bs as [| b bs IH]; intros results h Hok.
  - cbn. now rewrite app_nil_r.
  - destruct (Hok 0 _ (bulk_answer_0 c h b bs)) as (resp & Hresp & Hstatus).
    cbn [BulkLookup_over bulk_records]. rewrite Hresp.
    rewrite decide_True by assumption.
    rewrite IH.
    + unfold merge_records. rewrite foldl_app. cbn. now rewrite <- app_assoc.
    + intros k r Hk. apply (Hok (S k)). now rewrite bulk_answer_S.
Qed.

(** A walk that returns no error met no failing batch. *)
Lemma BulkLookup_over_success c bs :
  forall results h out h',
    BulkLookup_over c bs results h = ((out, None), h') ->
    forall k r, bulk_answer c h bs k = Some r -> batch_ok r.
Proof.
  induction bs as [| b bs IH]; intros results h out h' Hrun k r Hk.
  - unfold bulk_answer in Hk. now rewrite lookup_nil in Hk.
  - cbn [BulkLookup_over] in Hrun.
    destruct (packages.bulkLookupPackages (packagesClient c) h b)
      as [err | resp] eqn:Hresp; [discriminate |].
    case_decide as Hstatus.
    + destruct k as [| k].
      * rewrite bulk_answer_0, Hresp in Hk. injection Hk as <-.
        now exists resp.
      * rewrite bulk_answer_S in Hk. eapply IH; eassumption.
    + now destruct (JSON400 resp ≫= Error).
Qed.

(** The first failing batch ends the walk with its error. *)
Lemma BulkLookup_over_failure c bs :
  forall results h k r,
    (forall j r', j < k -> bulk_answer c h bs j = Some r' -> batch_ok r') ->
    bulk_answer c h bs k = Some r -> ~ batch_ok r ->
    BulkLookup_over c bs results h
    = ((None,
        Some match r with
             | inl err => Errorf_w "bulk lookup: %w" err
             | inr resp =>
               match JSON400 resp ≫= Error with
               | Some msg => Errorf_s "bulk lookup failed: %s" msg
               | None => Errorf_d "bulk lookup failed with status %d" (StatusCode resp)
               end
             end),
       h ++ bulk_calls (take (S k) bs)).
Proof.
  induction bs as [| b bs IH]; intros results h k r Hbefore Hk Hfail.
  - unfold bulk_answer in Hk. now rewrite lookup_nil in Hk.
  - destruct k as [| k].
    + rewrite bulk_answer_0 in Hk. injection Hk as <-.
      cbn [BulkLookup_over]. cbn [take bulk_calls fmap list_fmap].
      destruct (packages.bulkLookupPackages _ _ _) as [err | resp]; [reflexivity |].
      rewrite decide_False by (intros Hstatus; apply Hfail; now exists resp).
      now destruct (JSON400 resp ≫= Error).
    + destruct (Hbefore 0 _ ltac:(lia) (bulk_answer_0 c h b bs))
        as (resp & Hresp & Hstatus).
      cbn [BulkLookup_over]. rewrite Hresp, decide_True by assumption.
      rewrite bulk_answer_S in Hk.
      rewrite (IH _ _ k r); [| | assumption | assumption].
      * cbn. now rewrite <- app_assoc.
      * intros j r' Hj Hr'. apply (Hbefore (S j)); [lia |].
        now rewrite bulk_answer_S.
Qed.

(** *** The merged results *)

Lemma merge_records_cons (results : results_map) pkg pkgs :
  merge_records results (pkg :: pkgs)
  = merge_records (<[packages.Purl pkg := pkg]> results) pkgs.
Proof. reflexivity. Qed.

(** *** The theorems *)

(** C2: [BulkLookup] of the empty list returns the empty mapping and
    issues no call.  The batches of a list are consecutive pieces of
    it, in order, of 1 to 100 elements each.  In every run the calls
    are one per batch for an initial segment of the batches, in order;
    when no batch fails, they are one per batch for all batches, so
    that 250 inputs give three calls with 100, 100 and 50 PURLs. *)
Theorem BulkLookup_batching c h :
  BulkLookup c [] h = ((Some ∅, None), h)
  /\ (forall purls,
        concat (batches purls) = purls
        /\ Forall (fun b => 0 < length b <= 100) (batches purls))
  /\ (forall purls,
        exists k, (BulkLookup c purls h).2 = h ++ bulk_calls (take k (batches purls)))
  /\ (forall purls,
        (forall k r, bulk_answer c h (batches purls) k = Some r -> batch_ok r) ->
        exists m, BulkLookup c purls h
                  = ((Some m, None), h ++ bulk_calls (batches purls)))
  /\ (forall purls,
        length purls = 250 ->
        (forall k r, bulk_answer c h (batches purls) k = Some r -> batch_ok r) ->
        exists m b1 b2 b3,
          BulkLookup c purls h
          = ((Some m, None),
             h ++ [CallBulkLookupPackages b1; CallBulkLookupPackages b2;
                   CallBulkLookupPackages b3])
          /\ purls = b1 ++ b2 ++ b3
          /\ length b1 = 100 /\ length b2 = 100 /\ length b3 = 50).
Proof.
  split; [reflexivity |]. split; [| split; [| split]].
  - intros purls. split; [apply batches_concat | apply batches_bounds].
  - intros purls. rewrite BulkLookup_over_batches.
    destruct (BulkLookup_over_calls c (batches purls) ∅ h) as (k & Hcalls & _).
    now exists k.
  - intros purls Hok. rewrite BulkLookup_over_batches.
    rewrite BulkLookup_over_ok by assumption. eauto.
  - intros purls Hlen Hok. rewrite BulkLookup_over_batches.
    rewrite BulkLookup_over_ok by assumption.
    destruct (batches_250 purls Hlen) as (b1 & b2 & b3 & -> & Hcat & Hlens).
    eexists _, b1, b2, b3. split; [reflexivity | now split].
Qed.

(** C3, as the code has it: when a batch fails, by a transport error
    or by an answer with a status other than 200, the batches before it
    having been answered with 200, [BulkLookup] sends nothing further
    and returns an error and the nil mapping.  If the decoded 400 body
    of the failing answer carries an error message, the error carries
    that message; if it does not, the error carries the status code.
    The generated client decodes that body for status 400 only, so an
    answer with any other status, the other client-error statuses
    included, gives the error with the status code.  A transport error
    is returned wrapped. *)
Theorem BulkLookup_failure c purls h k r :
  (forall j r', j < k -> bulk_answer c h (batches purls) j = Some r' -> batch_ok r') ->
  bulk_answer c h (batches purls) k = Some r -> ~ batch_ok r ->
  exists err,
    BulkLookup c purls h
    = ((None, Some err), h ++ bulk_calls (take (S k) (batches purls)))
    /\ (forall resp msg,
          r = inr resp -> JSON400 resp ≫= Error = Some msg ->
          err = Errorf_s "bulk lookup failed: %s" msg)
    /\ (forall resp,
          r = inr resp -> JSON400 resp ≫= Error = None ->
          err = Errorf_d "bulk lookup failed with status %d" (StatusCode resp))
    /\ (forall resp,
          r = inr resp -> response_wf resp -> StatusCode resp <> 400%Z ->
          err = Errorf_d "bulk lookup failed with status %d" (StatusCode resp))
    /\ (forall status records message,
          r = inr (bulk_response status records message) ->
          err = if decide (status = 400%Z /\ is_Some message)
                then Errorf_s "bulk lookup failed: %s" (default "" message)
                else Errorf_d "bulk lookup failed with status %d" status)
    /\ (forall cause, r = inl cause -> err = Errorf_w "bulk lookup: %w" cause).
Proof.
  intros Hbefore Hk Hfail. eexists. split.
  - rewrite BulkLookup_over_batches.
    now apply BulkLookup_over_failure with (r := r).
  - split; [| split; [| split; [| split]]].
    + intros resp msg -> Hmsg. now rewrite Hmsg.
    + intros resp -> Hmsg. now rewrite Hmsg.
    + intros resp -> Hwf Hstatus.
      destruct (JSON400 resp) as [body |] eqn:Hbody; [| reflexivity].
      exfalso. apply Hstatus, Hwf. rewrite Hbody. eauto.
    + intros status records message ->. unfold bulk_response. cbn.
      destruct (decide (status = 400%Z)) as [-> | Hstatus].
      * destruct message as [msg |]; cbn.
        -- rewrite decide_True by eauto. reflexivity.
        -- rewrite decide_False; [reflexivity |].
           intros [_ [msg Hmsg]]. discriminate.
      * cbn. rewrite decide_False by tauto. reflexivity.
    + now intros cause ->.
Qed.
End bulk_lookup.

(** ** More on bulk lookup *)

Section bulk_lookup_more.
Context `{Schema}.
Implicit Types (c : Client) (h : list Call) (purls : list string).

(** After a merge the entry under a key is the last record of the list
    with that [Purl], and the entry from before when there is none. *)
Lemma merge_records_last pkgs :
  forall (results : results_map) key,
    merge_records results pkgs !! key
    = match last_with_purl key pkgs with
      | Some pkg => Some pkg
      | None => results !! key
      end.
Proof.
  unfold last_with_purl.
  induction pkgs as [| x pkgs IH]; intros results key; [reflexivity |].
  rewrite merge_records_cons, IH.
  destruct (decide (packages.Purl x = key)) as [Hkey | Hkey].
  - rewrite filter_cons_True by assumption. rewrite last_cons.
    destruct (last _); [reflexivity |]. rewrite <- Hkey. apply lookup_insert_eq.
  - rewrite filter_cons_False by assumption.
    destruct (last _); [reflexivity |]. now apply lookup_insert_ne.
Qed.

(** The batches by index. *)
Lemma batches_lookup k :
  forall purls,
    batches purls !! k
    = if decide (100 * k < length purls) then Some (take 100 (drop (100 * k) purls))
      else None.
Proof.
  induction k as [| k IH]; intros purls.
  - destruct purls as [| p ps]; [reflexivity |].
    rewrite batches_step by discriminate.
    rewrite decide_True by (cbn [length]; lia). reflexivity.
  - destruct purls as [| p ps]; [reflexivity |].
    rewrite batches_step by discriminate.
    cbn [lookup list_lookup]. rewrite IH, length_drop, drop_drop.
    replace (100 + 100 * k) with (100 * S k) by lia.
    destruct (decide (100 * k < length (p :: ps) - 100));
      [rewrite decide_True by lia | rewrite decide_False by lia]; reflexivity.
Qed.

Lemma batches_length purls : length (batches purls) = batch_count (length purls).
Proof.
  unfold batch_count.
  pose proof (Nat.div_mod_eq (length purls + 99) 100) as Hdiv.
  pose proof (Nat.mod_upper_bound (length purls + 99) 100 ltac:(lia)) as Hmod.
  destruct (Nat.lt_trichotomy (length (batches purls)) ((length purls + 99) / 100))
    as [Hlt | [Heq | Hgt]]; [| assumption |].
  - pose proof (lookup_ge_None_2 (batches purls) (length (batches purls)) ltac:(lia))
      as Hnone.
    rewrite batches_lookup in Hnone. case_decide; [discriminate | lia].
  - destruct (lookup_lt_is_Some_2 (batches purls) ((length purls + 99) / 100)
                ltac:(lia)) as [b Hb].
    rewrite batches_lookup in Hb. case_decide; [lia | discriminate].
Qed.

(** X14: the request number k of a bulk lookup (from 0) carries the
    PURLs from index 100 k up to 100 (k + 1), or up to the end of the
    input; n PURLs make (n + 99) / 100 batches, each of exactly 100
    PURLs but for the last.  A run never issues more calls than there
    are batches, and it issues at least one when the input is not
    empty. *)
Theorem BulkLookup_batch_indices c purls h :
  length (batches purls) = batch_count (length purls)
  /\ (forall k b,
        batches purls !! k = Some b ->
        b = slice purls (100 * k) (Nat.min (100 * S k) (length purls))
        /\ (S k < batch_count (length purls) -> length b = 100))
  /\ (exists new,
        (BulkLookup c purls h).2 = h ++ new
        /\ length new <= batch_count (length purls)
        /\ (purls <> [] -> 1 <= length new)).
Proof.
  split; [apply batches_length |]. split.
  - intros k b Hb. rewrite batches_lookup in Hb.
    case_decide as Hk; [| discriminate]. injection Hb as <-. split.
    + unfold slice.
      destruct (Nat.min_spec (100 * S k) (length purls)) as [[Hle ->] | [Hle ->]].
      * now replace (100 * S k - 100 * k) with 100 by lia.
      * rewrite !take_ge; [reflexivity | |]; rewrite length_drop; lia.
    + intros Hnext. rewrite <- batches_length in Hnext.
      pose proof (lookup_lt_is_Some_2 (batches purls) (S k) Hnext) as [b' Hb'].
      rewrite batches_lookup in Hb'. case_decide; [| discriminate].
      rewrite length_take, length_drop. lia.
  - rewrite BulkLookup_over_batches.
    destruct purls as [| p ps].
    + exists []. simp batches. cbn. rewrite app_nil_r.
      split; [reflexivity | split; [lia | congruence]].
    + rewrite batches_step by discriminate.
      cbn [BulkLookup_over].
      destruct (packages.bulkLookupPackages _ _ _) as [err | resp].
      { exists [CallBulkLookupPackages (take 100 (p :: ps))].
        split; [reflexivity |]. rewrite <- batches_length, (batches_step (p :: ps)) by discriminate.
        cbn [length]. split; lia. }
      destruct (decide (StatusCode resp = http.StatusOK)).
      * destruct (BulkLookup_over_calls c (batches (drop 100 (p :: ps)))
                    (merge_records ∅ (default [] (JSON200 resp)))
                    (h ++ [CallBulkLookupPackages (take 100 (p :: ps))]))
          as (k' & Hcalls' & _).
        exists (CallBulkLookupPackages (take 100 (p :: ps))
                  :: bulk_calls (take k' (batches (drop 100 (p :: ps))))).
        rewrite Hcalls', <- app_assoc. split; [reflexivity |].
        rewrite <- batches_length, (batches_step (p :: ps)) by discriminate.
        cbn [length]. unfold bulk_calls. rewrite length_fmap, length_take. split; lia.
      * exists [CallBulkLookupPackages (take 100 (p :: ps))].
        split; [now destruct (JSON400 resp ≫= Error) |].
        rewrite <- batches_length, (batches_step (p :: ps)) by discriminate.
        cbn [length]. split; lia.
Qed.

(** X13: in the mapping of a successful [BulkLookup] the entry under a
    key is the last record with that [Purl] among the records of all
    answers, in the order of arrival, and there is no entry when no
    record has that [Purl]: of two records with one [Purl] the later
    wins, also across batches. *)
Theorem BulkLookup_last_wins c purls h m h' :
  BulkLookup c purls h = ((Some m, None), h') ->
  forall key, m !! key = last_with_purl key (bulk_records c (batches purls) h).
Proof.
  intros Hrun key.
  rewrite BulkLookup_over_batches in Hrun.
  pose proof (BulkLookup_over_success _ _ _ _ _ _ Hrun) as Hok.
  rewrite (BulkLookup_over_ok _ _ _ _ Hok) in Hrun.
  injection Hrun as <- _.
  rewrite merge_records_last, lookup_empty. now destruct (last_with_purl _ _).
Qed.

(** X1: [Lookup] sends one request with the one PURL.  When the answer
    has status 200, the result is the last record of the answer whose
    [Purl] is the PURL asked for; when the answer has no such record
    (no body, no records, or only records filed under another
    spelling), the result is nil without an error. *)
Theorem Lookup_result c purl h resp :
  packages.bulkLookupPackages (packagesClient c) h [purl] = inr resp ->
  StatusCode resp = 200%Z ->
  Lookup c purl h
  = ((last_with_purl purl (default [] (JSON200 resp)), None),
     h ++ [CallBulkLookupPackages [purl]]).
Proof.
  intros Hresp Hstatus. unfold Lookup, bind, ret.
  rewrite BulkLookup_over_batches.
  rewrite batches_step by discriminate. cbn [take drop]. simp batches.
  cbn [BulkLookup_over]. rewrite Hresp, decide_True by assumption.
  cbn [mbind option_bind].
  rewrite merge_records_last, lookup_empty. now destruct (last_with_purl _ _).
Qed.

(** X2: when the one request of [Lookup] fails, [Lookup] returns nil
    and the error of [BulkLookup] as it is: the wrapped transport error,
    the message of the answer, or the status code. *)
Theorem Lookup_failure c purl h :
  (forall cause,
      packages.bulkLookupPackages (packagesClient c) h [purl] = inl cause ->
      Lookup c purl h
      = ((None, Some (Errorf_w "bulk lookup: %w" cause)),
         h ++ [CallBulkLookupPackages [purl]]))
  /\ (forall resp,
        packages.bulkLookupPackages (packagesClient c) h [purl] = inr resp ->
        StatusCode resp <> 200%Z ->
        Lookup c purl h
        = ((None,
            Some match JSON400 resp ≫= Error with
                 | Some msg => Errorf_s "bulk lookup failed: %s" msg
                 | None => Errorf_d "bulk lookup failed with status %d" (StatusCode resp)
                 end),
           h ++ [CallBulkLookupPackages [purl]])).
Proof.
  split.
  - intros cause Hresp. unfold Lookup, bind, ret.
    rewrite BulkLookup_over_batches.
    rewrite batches_step by discriminate. cbn [take drop]. simp batches.
    cbn [BulkLookup_over]. now rewrite Hresp.
  - intros resp Hresp Hstatus. unfold Lookup, bind, ret.
    rewrite BulkLookup_over_batches.
    rewrite batches_step by discriminate. cbn [take drop]. simp batches.
    cbn [BulkLookup_over]. rewrite Hresp, decide_False by assumption.
    now destruct (JSON400 resp ≫= Error).
Qed.
End bulk_lookup_more.

(** ** More on pagination *)

Section pagination_more.
Context `{Schema}.
Implicit Types (c : Client) (h : list Call) (pages : list (list Version)).

(** X11: when the service answers the requests for pages 1 to n with
    full pages and then fails on page n+1, by a transport error or by an
    answer with a status other than 200 and 404, [GetAllVersions]
    returns the nil slice and the error: the records of the n pages are
    not returned, and no further page is requested. *)
Theorem GetAllVersions_failure c registry name h pages :
  (Z.of_nat (length pages) < 2 ^ 63 - 1)%Z ->
  (forall k vs, pages !! k = Some vs ->
                full_page (versions_answer c h registry name k) vs) ->
  forall fuel, length pages < fuel ->
    (forall cause,
        versions_answer c h registry name (length pages) = inl cause ->
        GetAllVersions fuel c registry name h
        = (Some ([], Some (Errorf_w "get versions: %w" cause)),
           h ++ versions_calls registry name (S (length pages))))
    /\ (forall resp,
          versions_answer c h registry name (length pages) = inr resp ->
          StatusCode resp <> 200%Z -> StatusCode resp <> 404%Z ->
          GetAllVersions fuel c registry name h
          = (Some ([], Some (Errorf_d "get versions failed with status %d"
                                      (StatusCode resp))),
             h ++ versions_calls registry name (S (length pages)))).
Proof.
  intros Hbound Hfull fuel Hfuel.
  replace fuel with (length pages + S (fuel - S (length pages))) by lia.
  rewrite GetAllVersions_skip by assumption.
  rewrite GetAllVersions_loop_S. cbv zeta.
  rewrite versions_calls_S, app_assoc. unfold versions_answer. split.
  - intros cause Hresp. now rewrite Hresp.
  - intros resp Hresp Hok Hfound. rewrite Hresp.
    rewrite decide_False by assumption. now rewrite decide_True by assumption.
Qed.

(** X12: the loop of [GetAllVersions] has no bound of its own.  Against
    a service that answers every request with a full page it is still
    running after any number of turns, having requested one page a turn. *)
Theorem GetAllVersions_endless c registry name h (page : nat -> list Version) :
  (forall k, full_page (versions_answer c h registry name k) (page k)) ->
  forall fuel, (Z.of_nat fuel < 2 ^ 63 - 1)%Z ->
    GetAllVersions fuel c registry name h
    = (None, h ++ versions_calls registry name fuel).
Proof.
  intros Hfull fuel Hbound.
  pose proof (GetAllVersions_skip c registry name h (page <$> seq 0 fuel) 0) as Hskip.
  rewrite length_fmap, length_seq, Nat.add_0_r in Hskip.
  rewrite Hskip; [reflexivity | assumption |].
  intros k vs Hk. apply list_lookup_fmap_Some in Hk as (j & -> & Hj).
  apply lookup_seq in Hj as [-> _]. apply Hfull.
Qed.

(** X16: [GetAllVersions] gives the same result for a package that the
    service does not know and for a package without versions: after one
    request, a 404 and an answer with status 200 and no records both
    give the nil slice and no error. *)
Theorem GetAllVersions_first_page c registry name h resp fuel :
  0 < fuel ->
  versions_answer c h registry name 0 = inr resp ->
  StatusCode resp = 404%Z
  \/ (StatusCode resp = 200%Z /\ default [] (JSON200 resp) = []) ->
  GetAllVersions fuel c registry name h
  = (Some ([], None), h ++ versions_calls registry name 1).
Proof.
  intros Hfuel Hresp Hcase. destruct fuel as [| fuel]; [lia |].
  unfold GetAllVersions. rewrite GetAllVersions_loop_S. cbv zeta.
  unfold versions_answer in Hresp.
  change (versions_calls registry name 0) with (@nil Call) in Hresp.
  rewrite app_nil_r in Hresp. change (Z.of_nat 1) with 1%Z in Hresp.
  rewrite Hresp.
  destruct Hcase as [Hgone | [Hok Hnone]].
  - now rewrite decide_True by assumption.
  - rewrite decide_False by (unfold http.StatusNotFound; lia).
    rewrite decide_False by (unfold http.StatusOK; tauto).
    destruct (JSON200 resp) as [versions |]; [| reflexivity].
    cbn in Hnone. subst versions. reflexivity.
Qed.
End pagination_more.

(** ** More on the single requests *)

Section single_requests_more.
Context `{Schema}.
Implicit Types (c : Client) (h : list Call).

(** X3: in [LookupByRegistryAndName], [GetVersion] and [GetRepository]
    a transport error is returned wrapped, with no record; an answer
    with status 200 gives its decoded body and no error, also when the
    body is nil, which a caller cannot tell from a 404; and an answer
    with any status other than 200 and 404 is an error, the other 2xx
    statuses included. *)
Theorem single_entity_cases c h :
  (forall registry name,
      let h' := h ++ [CallGetRegistryPackage registry name] in
      match packages.getRegistryPackage (packagesClient c) h registry name with
      | inl cause =>
        LookupByRegistryAndName c registry name h
        = ((None, Some (Errorf_w "lookup package: %w" cause)), h')
      | inr resp =>
        (StatusCode resp = 200 ->
         LookupByRegistryAndName c registry name h = ((JSON200 resp, None), h'))
        /\ (StatusCode resp <> 200 -> StatusCode resp <> 404 ->
            LookupByRegistryAndName c registry name h
            = ((None, Some (Errorf_d "lookup failed with status %d" (StatusCode resp))),
               h'))
      end)%Z
  /\ (forall registry name version,
      let h' := h ++ [CallGetRegistryPackageVersion registry name version] in
      match packages.getRegistryPackageVersion (packagesClient c) h registry name version
      with
      | inl cause =>
        GetVersion c registry name version h
        = ((None, Some (Errorf_w "get version: %w" cause)), h')
      | inr resp =>
        (StatusCode resp = 200 ->
         GetVersion c registry name version h = ((JSON200 resp, None), h'))
        /\ (StatusCode resp <> 200 -> StatusCode resp <> 404 ->
            GetVersion c registry name version h
            = ((None, Some (Errorf_d "get version failed with status %d"
                                     (StatusCode resp))), h'))
      end)%Z
  /\ (forall url,
      let h' := h ++ [CallRepositoriesLookup url] in
      match repos.repositoriesLookup (reposClient c) h url with
      | inl cause =>
        GetRepository c url h
        = ((None, Some (Errorf_w "lookup repository: %w" cause)), h')
      | inr resp =>
        (StatusCode resp = 200 ->
         GetRepository c url h = ((JSON200 resp, None), h'))
        /\ (StatusCode resp <> 200 -> StatusCode resp <> 404 ->
            GetRepository c url h
            = ((None, Some (Errorf_d "lookup repository failed with status %d"
                                     (StatusCode resp))), h'))
      end)%Z.
Proof.
  repeat split; intros.
  all: unfold LookupByRegistryAndName, GetVersion, GetRepository, bind, ret,
         packages.GetRegistryPackageWithResponse,
         packages.GetRegistryPackageVersionWithResponse,
         repos.RepositoriesLookupWithResponse; cbn.
  all: match goal with |- match ?r with _ => _ end => destruct r as [cause | resp] end.
  all: try reflexivity.
  all: unfold http.StatusNotFound, http.StatusOK; split; intros.
  all: try (rewrite decide_False by lia; rewrite decide_False by tauto; reflexivity).
  all: rewrite decide_False by assumption; rewrite decide_True by assumption; reflexivity.
Qed.

(** X4: [ListRegistries] sends one request and has no absent result:
    a 404 is an error like every status other than 200.  An answer with
    status 200 gives its registries, and none when it has no body. *)
Theorem ListRegistries_cases c h :
  let h' := h ++ [CallGetRegistries] in
  match packages.getRegistries (packagesClient c) h with
  | inl cause =>
    ListRegistries c h = (([], Some (Errorf_w "list registries: %w" cause)), h')
  | inr resp =>
    (StatusCode resp = 200%Z ->
     ListRegistries c h = ((default [] (JSON200 resp), None), h'))
    /\ (StatusCode resp <> 200%Z ->
        ListRegistries c h
        = (([], Some (Errorf_d "list registries failed with status %d" (StatusCode resp))),
           h'))
  end.
Proof.
  unfold ListRegistries, bind, ret, packages.GetRegistriesWithResponse. cbn.
  destruct (packages.getRegistries _ _) as [cause | resp]; [reflexivity |].
  unfold http.StatusOK. split; intros Hstatus.
  - rewrite decide_False by tauto. now destruct (JSON200 resp).
  - now rewrite decide_True by assumption.
Qed.
End single_requests_more.

(** ** More on the PURL mapper *)

Section purl_mapper_more.
Implicit Types purl : packageurl.PackageURL.

(** The loop of [SupportedPURLTypes] over any list of entries. *)
Lemma supported_elem (l : list (string * string)) t :
  t ∈ foldr (fun '(t, registry) types =>
               if decide (registry <> "") then t :: types else types) [] l
  <-> exists registry, (t, registry) ∈ l /\ registry <> "".
Proof.
  induction l as [| [t' r'] l IH]; cbn [foldr].
  - split; [intros Hin; now apply elem_of_nil in Hin |].
    intros (r & Hin & _). now apply elem_of_nil in Hin.
  - case_decide as Hr.
    + rewrite elem_of_cons, IH. split.
      * intros [-> | (r & Hin & Hne)].
        -- exists r'. split; [apply elem_of_cons; now left | assumption].
        -- exists r. split; [apply elem_of_cons; now right | assumption].
      * intros (r & Hin & Hne). apply elem_of_cons in Hin as [Heq | Hin].
        -- left. congruence.
        -- right. eauto.
    + rewrite IH. split.
      * intros (r & Hin & Hne). exists r. split; [apply elem_of_cons; now right | assumption].
      * intros (r & Hin & Hne). apply elem_of_cons in Hin as [Heq | Hin].
        -- exfalso. apply Hne. congruence.
        -- eauto.
Qed.

Lemma supported_NoDup (l : list (string * string)) :
  NoDup l.*1 ->
  NoDup (foldr (fun '(t, registry) types =>
                  if decide (registry <> "") then t :: types else types) [] l).
Proof.
  induction l as [| [t r] l IH]; intros Hnodup; [constructor |].
  cbn [foldr]. rewrite fmap_cons in Hnodup. cbn [fst] in Hnodup.
  apply NoDup_cons in Hnodup as [Hfresh Hnodup].
  case_decide; [| now apply IH]. constructor; [| now apply IH].
  intros Hin. apply supported_elem in Hin as (r' & Hin & _).
  apply Hfresh. apply list_elem_of_fmap. now exists (t, r').
Qed.

Lemma SupportedPURLTypes_elem purl :
  packageurl.Type_ purl ∈ SupportedPURLTypes <-> PURLToRegistry purl <> "".
Proof.
  unfold SupportedPURLTypes, PURLToRegistry, go_index.
  rewrite supported_elem. split.
  - intros (r & Hin & Hne). apply elem_of_map_to_list in Hin. now rewrite Hin.
  - intros Hne. destruct (purlTypeToRegistry !! packageurl.Type_ purl) as [r |] eqn:Hr;
      [| contradiction].
    exists r. split; [now apply elem_of_map_to_list | assumption].
Qed.

(** X7: [SupportedPURLTypes] lists a type exactly when [PURLToRegistry]
    gives a PURL of that type a registry, and it lists no type twice;
    so the seven types mapped to the empty string are not listed. *)
Theorem SupportedPURLTypes_registry :
  (forall purl,
      packageurl.Type_ purl ∈ SupportedPURLTypes <-> PURLToRegistry purl <> "")
  /\ NoDup SupportedPURLTypes
  /\ Forall (fun t => t ∉ SupportedPURLTypes)
       [packageurl.TypeGeneric; packageurl.TypeGithub; packageurl.TypeBitbucket;
        packageurl.TypeBitnami; packageurl.TypeHuggingface; packageurl.TypeOCI;
        packageurl.TypeRPM].
Proof.
  split; [exact SupportedPURLTypes_elem |]. split.
  - exact (supported_NoDup _ (NoDup_fst_map_to_list purlTypeToRegistry)).
  - repeat constructor.
    all: match goal with |- ?t ∉ _ =>
           intros Hin;
           apply (SupportedPURLTypes_elem (packageurl.mkPackageURL t "" "" "" [] ""))
             in Hin;
           apply Hin; vm_compute; reflexivity
         end.
Qed.

(** X15: a registry belongs to one type.  Two PURLs that
    [PURLToRegistry] sends to the same registry, the empty one apart,
    have the same type. *)
Theorem PURLToRegistry_injective purl purl' :
  PURLToRegistry purl = PURLToRegistry purl' ->
  PURLToRegistry purl <> "" ->
  packageurl.Type_ purl = packageurl.Type_ purl'.
Proof.
  unfold PURLToRegistry, go_index. intros Heq Hne.
  destruct (purlTypeToRegistry !! packageurl.Type_ purl) as [r |] eqn:Hr;
    [| contradiction].
  destruct (purlTypeToRegistry !! packageurl.Type_ purl') as [r' |] eqn:Hr';
    cbn in Heq, Hne; subst; [| contradiction].
  apply elem_of_map_to_list, list_elem_of_In in Hr.
  apply elem_of_map_to_list, list_elem_of_In in Hr'.
  set (inverse := (list_to_map
                     ((fun tr => (tr.2, tr.1)) <$> map_to_list purlTypeToRegistry)
                   : gmap string string)).
  assert (Hall : forallb (fun tr : string * string =>
                            if decide (tr.2 = "") then true
                            else bool_decide (inverse !! tr.2 = Some tr.1))
                         (map_to_list purlTypeToRegistry) = true)
    by (vm_compute; reflexivity).
  clearbody inverse. rewrite forallb_forall in Hall.
  pose proof (Hall _ Hr) as H1. pose proof (Hall _ Hr') as H2.
  cbn [fst snd] in H1, H2. rewrite decide_False in H1, H2 by assumption.
  apply bool_decide_eq_true in H1, H2. clear Hall Hr Hr'.
  rewrite H1 in H2. now injection H2.
Qed.
End purl_mapper_more.

Section purl_operations.
Context `{Schema}.
Implicit Types (c : Client) (h : list Call) (purl : packageurl.PackageURL).

(** X5: the operations keyed by PURL fail before any request is sent.
    For a PURL whose type [SupportedPURLTypes] does not list,
    [LookupPURL] and [GetAllVersionsPURL] return the error "unsupported
    PURL type" with the type, and so does [GetVersionPURL] when the PURL
    has a version; for a PURL without a version [GetVersionPURL] returns
    "PURL has no version" whatever the type.  The list of calls is as
    it was. *)
Theorem PURL_operations_fail_fast c purl h :
  (packageurl.Type_ purl ∉ SupportedPURLTypes ->
   let err := Errorf_s "unsupported PURL type: %s" (packageurl.Type_ purl) in
   LookupPURL c purl h = ((None, Some err), h)
   /\ (forall fuel, GetAllVersionsPURL fuel c purl h = (Some ([], Some err), h))
   /\ (packageurl.Version purl <> "" -> GetVersionPURL c purl h = ((None, Some err), h)))
  /\ (packageurl.Version purl = "" ->
      GetVersionPURL c purl h = ((None, Some (Errorf "PURL has no version")), h)).
Proof.
  split.
  - intros Hout.
    assert (Hempty : PURLToRegistry purl = "").
    { destruct (decide (PURLToRegistry purl = "")) as [| Hne]; [assumption |].
      exfalso. apply Hout. now apply SupportedPURLTypes_elem. }
    unfold LookupPURL, GetAllVersionsPURL, GetVersionPURL, ret.
    rewrite Hempty. rewrite !decide_True by reflexivity. repeat split.
    intros Hversion. now rewrite decide_False by assumption.
  - intros Hversion. unfold GetVersionPURL, ret. now rewrite decide_True by assumption.
Qed.

(** X6: for a PURL of a listed type the operations keyed by PURL are the
    operations keyed by registry and name, at the registry of the type
    and the name in the form of the ecosystem; [LookupPURL] and
    [GetVersionPURL] (for a PURL with a version) send exactly the one
    request for that registry and name. *)
Theorem PURL_operations_delegate c purl h :
  packageurl.Type_ purl ∈ SupportedPURLTypes ->
  let registry := PURLToRegistry purl in
  let name := PURLToName purl in
  (LookupPURL c purl h = LookupByRegistryAndName c registry name h
   /\ (LookupPURL c purl h).2 = h ++ [CallGetRegistryPackage registry name])
  /\ (packageurl.Version purl <> "" ->
      GetVersionPURL c purl h = GetVersion c registry name (packageurl.Version purl) h
      /\ (GetVersionPURL c purl h).2
         = h ++ [CallGetRegistryPackageVersion registry name (packageurl.Version purl)])
  /\ (forall fuel,
        GetAllVersionsPURL fuel c purl h = GetAllVersions fuel c registry name h).
Proof.
  intros Hin registry name.
  assert (Hne : PURLToRegistry purl <> "") by now apply SupportedPURLTypes_elem.
  assert (Hlookup : LookupPURL c purl h = LookupByRegistryAndName c registry name h).
  { unfold LookupPURL. now rewrite decide_False by assumption. }
  split; [| split].
  - split; [exact Hlookup |]. rewrite Hlookup.
    unfold LookupByRegistryAndName, bind, ret, packages.GetRegistryPackageWithResponse.
    cbn. destruct (packages.getRegistryPackage _ _ _ _); [reflexivity |].
    repeat case_decide; reflexivity.
  - intros Hversion.
    assert (Hget : GetVersionPURL c purl h
                   = GetVersion c registry name (packageurl.Version purl) h).
    { unfold GetVersionPURL. rewrite decide_False by assumption.
      now rewrite decide_False by assumption. }
    split; [exact Hget |]. rewrite Hget.
    unfold GetVersion, bind, ret, packages.GetRegistryPackageVersionWithResponse.
    cbn. destruct (packages.getRegistryPackageVersion _ _ _ _ _); [reflexivity |].
    repeat case_decide; reflexivity.
  - intros fuel. unfold GetAllVersionsPURL. now rewrite decide_False by assumption.
Qed.
End purl_operations.

(** ** More on construction *)

Section headers.
Implicit Types (cfg : clientConfig) (req : http.Request).

(** X8: the request editor of [NewClient] never fails.  It sets
    User-Agent to the one value of the configuration, replacing what was
    there; it sets From and Authorization ("Bearer " and the key) when
    the address and the key are not empty, and leaves them as they were
    otherwise; every other header is as it was. *)
Theorem addHeaders_sets cfg req :
  let hd := http.Request_Header req in
  let hd' := http.Request_Header (addHeaders cfg req).1 in
  (addHeaders cfg req).2 = None
  /\ hd' !! "User-Agent" = Some [cfg_userAgent cfg]
  /\ hd' !! "From"
     = (if decide (cfg_fromEmail cfg = "") then hd !! "From"
        else Some [cfg_fromEmail cfg])
  /\ hd' !! "Authorization"
     = (if decide (cfg_apiKey cfg = "") then hd !! "Authorization"
        else Some ["Bearer " +:+ cfg_apiKey cfg])
  /\ (forall key,
        key <> "User-Agent" -> key <> "From" -> key <> "Authorization" ->
        hd' !! key = hd !! key).
Proof.
  unfold addHeaders, http.Header_Set. cbn [fst snd http.Request_Header].
  split; [reflexivity |].
  destruct (decide (cfg_fromEmail cfg = "")) as [Hfrom | Hfrom];
    [rewrite (decide_False (P := cfg_fromEmail cfg <> "")) by tauto
    | rewrite (decide_True (P := cfg_fromEmail cfg <> "")) by assumption];
  (destruct (decide (cfg_apiKey cfg = "")) as [Hkey | Hkey];
    [rewrite (decide_False (P := cfg_apiKey cfg <> "")) by tauto
    | rewrite (decide_True (P := cfg_apiKey cfg <> "")) by assumption]).
  all: unfold http.Header in *; repeat split; intros.
  all: repeat (rewrite lookup_insert_eq
               || rewrite lookup_insert_ne by (discriminate || congruence)).
  all: reflexivity.
Qed.
End headers.

Section construction_more.
Context `{Schema}.
Variable packages_New :
  string -> list ClientOption -> M (error + packages.ClientWithResponses).
Variable repos_New :
  string -> list ClientOption -> M (error + repos.ClientWithResponses).

Lemma given_cons {A} (pick : setting -> option A) d s ss :
  given pick d (s :: ss) = given pick (default d (pick s)) ss.
Proof.
  unfold given. cbn [omap list_omap].
  destruct (pick s) as [a |]; [| reflexivity].
  cbn [default]. rewrite last_cons. now destruct (last _).
Qed.

(** Options in a row: each field takes the value of the last option
    for it, the user agent stays. *)
Lemma apply_options_given ss :
  forall cfg,
    apply_options cfg (option_of <$> ss)
    = {| cfg_packagesServer := given packagesServer_of (cfg_packagesServer cfg) ss;
         cfg_reposServer := given reposServer_of (cfg_reposServer cfg) ss;
         cfg_httpClient := given httpClient_of (cfg_httpClient cfg) ss;
         cfg_userAgent := cfg_userAgent cfg;
         cfg_fromEmail := given fromEmail_of (cfg_fromEmail cfg) ss;
         cfg_apiKey := given apiKey_of (cfg_apiKey cfg) ss |}.
Proof.
  induction ss as [| s ss IH]; intros cfg.
  - now destruct cfg.
  - cbn [fmap list_fmap apply_options foldl]. fold (apply_options (option_of s cfg)).
    rewrite IH, !given_cons. now destruct s.
Qed.

(** X9: a list of options acts like one option for each setting: the
    servers, the HTTP client, the address and the key are those of the
    last option given for them, and the defaults when there is none; no
    option changes the user agent, so the client that [NewClient] builds
    carries the user agent it was called with. *)
Theorem NewClient_options ua ss h :
  NewClient packages_New repos_New ua (option_of <$> ss) h
  = NewClient packages_New repos_New ua
      [WithPackagesServer (given packagesServer_of DefaultPackagesServer ss);
       WithReposServer (given reposServer_of DefaultReposServer ss);
       WithHTTPClient (given httpClient_of defaultHTTPClient ss);
       WithFrom (given fromEmail_of "" ss);
       WithAPIKey (given apiKey_of "" ss)] h
  /\ (forall cl err h',
        NewClient packages_New repos_New ua (option_of <$> ss) h = ((Some cl, err), h') ->
        userAgent cl = ua).
Proof.
  split.
  - unfold NewClient. case_decide; [reflexivity |].
    fold (apply_options
            {| cfg_packagesServer := DefaultPackagesServer;
               cfg_reposServer := DefaultReposServer;
               cfg_httpClient := defaultHTTPClient;
               cfg_userAgent := ua; cfg_fromEmail := ""; cfg_apiKey := "" |}
            (option_of <$> ss)).
    now rewrite apply_options_given.
  - intros cl err h'. unfold NewClient. case_decide; [discriminate |].
    fold (apply_options
            {| cfg_packagesServer := DefaultPackagesServer;
               cfg_reposServer := DefaultReposServer;
               cfg_httpClient := defaultHTTPClient;
               cfg_userAgent := ua; cfg_fromEmail := ""; cfg_apiKey := "" |}
            (option_of <$> ss)).
    rewrite apply_options_given. unfold bind, ret.
    destruct (packages_New _ _ h) as [[e | pc] h1]; [discriminate |].
    destruct (repos_New _ _ h1) as [[e | rc] h2]; [discriminate |].
    intros [= <- _ _]. reflexivity.
Qed.

End construction_more.

(** * Examples

    Each theorem above, used on a concrete service. *)

Section examples.
Import fixtures.
#[local] Existing Instance strings.

Lemma PURLToRegistry_table_witness :
  PURLToRegistry (packageurl.mkPackageURL "npm" "babel" "core" "7.20.0" [] "")
    = PURLToRegistry (packageurl.mkPackageURL "npm" "" "lodash" "" [] "")
  /\ PURLToRegistry (packageurl.mkPackageURL "gem" "" "rails" "7.0.0" [] "")
     = "rubygems.org"
  /\ PURLToRegistry (packageurl.mkPackageURL "no-such-type" "" "x" "" [] "") = ""
  /\ PURLToRegistry (packageurl.mkPackageURL "oci" "" "alpine" "" [] "") = "".
Proof.
  destruct PURLToRegistry_table as (Htype & Hin & Hout & Hnone).
  split; [| split; [| split]].
  - apply Htype. reflexivity.
  - apply Hin. vm_compute. reflexivity.
  - apply Hout. vm_compute. reflexivity.
  - apply Hnone. vm_compute. repeat constructor.
Defined.

Lemma PURLToName_rule_witness :
  PURLToName (packageurl.mkPackageURL "gem" "" "rails" "" [] "") = "rails"
  /\ PURLToName (packageurl.mkPackageURL "maven" "org.apache.commons" "commons-lang3"
                                         "" [] "")
     = "org.apache.commons:commons-lang3"
  /\ PURLToName (packageurl.mkPackageURL "apk" "alpine" "curl" "" [] "") = "curl"
  /\ PURLToName (packageurl.mkPackageURL "golang" "github.com/go-git" "go-git" "" [] "")
     = "github.com/go-git/go-git".
Proof.
  split; [| split; [| split]].
  - destruct (PURLToName_rule (packageurl.mkPackageURL "gem" "" "rails" "" [] ""))
      as (Hbare & _).
    apply Hbare. reflexivity.
  - destruct (PURLToName_rule
                (packageurl.mkPackageURL "maven" "org.apache.commons" "commons-lang3"
                                         "" [] ""))
      as (_ & Hmaven & _).
    apply Hmaven; [simpl; discriminate | reflexivity].
  - destruct (PURLToName_rule (packageurl.mkPackageURL "apk" "alpine" "curl" "" [] ""))
      as (_ & _ & Hapk & _).
    apply Hapk. reflexivity.
  - destruct (PURLToName_rule
                (packageurl.mkPackageURL "golang" "github.com/go-git" "go-git" "" [] ""))
      as (_ & _ & _ & Hother).
    apply Hother; simpl; discriminate.
Defined.

Lemma ParsePURL_scheme_witness :
  (exists purl,
      ParsePURL FromString "gem/rails@7.0.0" = (purl, None)
      /\ ParsePURL FromString "pkg:gem/rails@7.0.0" = (purl, None)
      /\ packageurl.Type_ purl = "gem" /\ packageurl.Name purl = "rails"
      /\ packageurl.Version purl = "7.0.0")
  /\ ParsePURL FromString "npm/lodash" = ParsePURL FromString "pkg:npm/lodash".
Proof.
  destruct (ParsePURL_scheme FromString) as (Hany & _ & Hrails). split.
  - exact (Hrails _ eq_refl eq_refl eq_refl eq_refl).
  - apply (Hany "npm/lodash"). reflexivity.
Defined.

Lemma single_entity_status_witness :
  LookupByRegistryAndName echo_service "rubygems.org" "no-such-gem" []
    = ((None, None), [CallGetRegistryPackage "rubygems.org" "no-such-gem"])
  /\ GetVersion failing_service "rubygems.org" "rake" "13.0.0" []
     = ((None, Some (Errorf_d "get version failed with status %d" 500)),
        [CallGetRegistryPackageVersion "rubygems.org" "rake" "13.0.0"])
  /\ GetRepository echo_service "https://github.com/ruby/rake" []
     = ((None, None), [CallRepositoriesLookup "https://github.com/ruby/rake"]).
Proof.
  split; [| split].
  - destruct (single_entity_status echo_service []) as (Hlookup & _ & _).
    apply (Hlookup "rubygems.org" "no-such-gem" _ eq_refl). reflexivity.
  - destruct (single_entity_status failing_service []) as (_ & Hversion & _).
    apply (Hversion "rubygems.org" "rake" "13.0.0" _ eq_refl).
    + simpl. discriminate.
    + simpl. lia.
  - destruct (single_entity_status echo_service []) as (_ & _ & Hrepo).
    apply (Hrepo "https://github.com/ruby/rake" _ eq_refl). reflexivity.
Defined.

Lemma NewClient_userAgent_witness :
  NewClient (packages_New echo_service) (repos_New echo_service) ""
            [WithFrom "someone@example.org"] []
    = ((None, Some (Errorf "userAgent is required")), [])
  /\ exists cl,
       NewClient (packages_New echo_service) (repos_New echo_service) "my-app/1.0"
                 [WithFrom "someone@example.org"] []
       = ((Some cl, None), []).
Proof.
  destruct (NewClient_userAgent (packages_New echo_service) (repos_New echo_service)
              [WithFrom "someone@example.org"] [])
    as (Hempty & _ & Hbuilt).
  split; [exact Hempty |].
  apply Hbuilt.
  - discriminate.
  - intros server o h1. eexists. reflexivity.
  - intros server o h1. eexists. reflexivity.
Defined.

Lemma GetAllVersions_pages_witness :
  GetAllVersions 3 paged_service "rubygems.org" "rake" []
  = (Some (all_versions, None), versions_calls "rubygems.org" "rake" 3).
Proof.
  destruct (GetAllVersions_pages paged_service "rubygems.org" "rake" []
              [take 100 all_versions; take 100 (drop 100 all_versions)]
              (drop 200 all_versions)) as [Hdone _].
  - simpl. lia.
  - intros [| [| k]] vs Hk; simpl in Hk; [| | discriminate].
    + injection Hk as <-. eexists. split; [reflexivity |].
      split; [reflexivity |]. split; [reflexivity |]. vm_compute. lia.
    + injection Hk as <-. eexists. split; [reflexivity |].
      split; [reflexivity |]. split; [reflexivity |]. vm_compute. lia.
  - eexists. split; [reflexivity |]. split; [reflexivity |].
    split; [reflexivity |]. vm_compute. lia.
  - rewrite (Hdone 3) by (simpl; lia). reflexivity.
Defined.

Lemma GetAllVersions_not_found_witness :
  GetAllVersions 2 vanishing_service "rubygems.org" "rake" []
  = (Some ([], None), versions_calls "rubygems.org" "rake" 2).
Proof.
  apply (GetAllVersions_not_found vanishing_service "rubygems.org" "rake" []
           [take 100 all_versions]
           {| StatusCode := 404; JSON200 := None; JSON400 := None |}).
  - simpl. lia.
  - intros [| k] vs Hk; simpl in Hk; [| discriminate].
    injection Hk as <-. eexists. split; [reflexivity |].
    split; [reflexivity |]. split; [reflexivity |]. vm_compute. lia.
  - reflexivity.
  - reflexivity.
  - simpl. lia.
Defined.

(** Against the echoing service no batch fails. *)
Lemma echo_batch_ok h bs k r :
  bulk_answer echo_service h bs k = Some r -> batch_ok r.
Proof.
  unfold bulk_answer. destruct (bs !! k) as [b |]; [| discriminate].
  intros [= <-]. eexists. split; reflexivity.
Qed.

Lemma BulkLookup_batching_witness :
  BulkLookup echo_service [] [] = ((Some ∅, None), [])
  /\ exists m b1 b2 b3,
       BulkLookup echo_service many_purls []
       = ((Some m, None),
          [CallBulkLookupPackages b1; CallBulkLookupPackages b2;
           CallBulkLookupPackages b3])
       /\ many_purls = b1 ++ b2 ++ b3
       /\ length b1 = 100 /\ length b2 = 100 /\ length b3 = 50.
Proof.
  destruct (BulkLookup_batching echo_service []) as (Hempty & _ & _ & _ & H250).
  split; [exact Hempty |].
  apply H250.
  - vm_compute. reflexivity.
  - intros k r. apply echo_batch_ok.
Defined.

Lemma BulkLookup_failure_witness :
  BulkLookup refusing_service many_purls []
  = ((None, Some (Errorf_s "bulk lookup failed: %s" "too many requests")),
     bulk_calls (take 2 (batches many_purls)))
  /\ BulkLookup breaking_service many_purls []
     = ((None, Some (Errorf_w "bulk lookup: %w" (ExternalError "connection reset"))),
        bulk_calls (take 2 (batches many_purls))).
Proof.
  split.
  - destruct (BulkLookup_failure refusing_service many_purls [] 1
                (refusal 400 "too many requests"))
      as (err & Hrun & Hmsg & _).
    + intros [| j] r' Hj Hr'; [| lia].
      vm_compute in Hr'. injection Hr' as <-. eexists. split; reflexivity.
    + vm_compute. reflexivity.
    + intros (resp & Hresp & Hstatus). injection Hresp as <-. discriminate.
    + rewrite Hrun. now rewrite (Hmsg _ "too many requests" eq_refl eq_refl).
  - destruct (BulkLookup_failure breaking_service many_purls [] 1
                (inl (ExternalError "connection reset")))
      as (err & Hrun & _ & _ & _ & _ & Hcause).
    + intros [| j] r' Hj Hr'; [| lia].
      vm_compute in Hr'. injection Hr' as <-. eexists. split; reflexivity.
    + vm_compute. reflexivity.
    + intros (resp & Hresp & _). discriminate.
    + rewrite Hrun. now rewrite (Hcause _ eq_refl).
Defined.

(** C3 does not hold as written: a service answers the bulk lookup with
    status 422, a client-error status, and an error message in the
    body.  The generated client decodes the error body of a 400 answer
    only, so the call fails with the error that carries the status
    code, not with the message. *)
Lemma BulkLookup_422_message :
  packages.bulkLookupPackages (packagesClient fixtures_more.unprocessable_service) [] ["pkg:gem/rails"]
  = inr (bulk_response 422 None (Some "purls must be an array"))
  /\ (400 <= 422 < 500)%Z
  /\ BulkLookup fixtures_more.unprocessable_service ["pkg:gem/rails"] []
     = ((None, Some (Errorf_d "bulk lookup failed with status %d" 422)),
        [CallBulkLookupPackages ["pkg:gem/rails"]])
  /\ Errorf_d "bulk lookup failed with status %d" 422
     <> Errorf_s "bulk lookup failed: %s" "purls must be an array".
Proof.
  split; [reflexivity |]. split; [lia |].
  split; [vm_compute; reflexivity | discriminate].
Qed.

(** C1, at the failing input: a service that files a package under its
    PURL without the version answers the one input
    "pkg:gem/rails@7.0.0" with the one record of rails.  The call
    succeeds, the record is in the mapping under "pkg:gem/rails", the
    mapping has nothing under the string that the caller supplied, and
    [Lookup], which reads the mapping at that string, reports the
    package as absent. *)
Lemma BulkLookup_key_rewritten :
  exists m,
    BulkLookup canonical_service ["pkg:gem/rails@7.0.0"] []
    = ((Some m, None), [CallBulkLookupPackages ["pkg:gem/rails@7.0.0"]])
    /\ bulk_records canonical_service (batches ["pkg:gem/rails@7.0.0"]) []
       = [record "pkg:gem/rails"]
    /\ m !! "pkg:gem/rails@7.0.0" = None
    /\ m !! "pkg:gem/rails" = Some (record "pkg:gem/rails")
    /\ ("pkg:gem/rails" ∉ ["pkg:gem/rails@7.0.0"])
    /\ Lookup canonical_service "pkg:gem/rails@7.0.0" []
       = ((None, None), [CallBulkLookupPackages ["pkg:gem/rails@7.0.0"]]).
Proof.
  exists {[ "pkg:gem/rails" := record "pkg:gem/rails" ]}.
  split; [vm_compute; reflexivity |].
  split; [vm_compute; reflexivity |].
  split; [vm_compute; reflexivity |].
  split; [vm_compute; reflexivity |].
  split; [| vm_compute; reflexivity].
  intros Hin. apply list_elem_of_singleton in Hin. discriminate.
Qed.
End examples.

(** * More examples *)

Section more_examples.
Import fixtures fixtures_more.
#[local] Existing Instance strings.

Lemma Lookup_result_witness :
  Lookup canonical_service "pkg:gem/rails@7.0.0" []
  = ((None, None), [CallBulkLookupPackages ["pkg:gem/rails@7.0.0"]])
  /\ Lookup twofold_service "pkg:gem/rails" []
     = ((Some {| packages.Purl := "pkg:gem/rails"; packages.Name := "pkg:gem/rails";
                 packages.Ecosystem := "second" |}, None),
        [CallBulkLookupPackages ["pkg:gem/rails"]]).
Proof.
  split.
  - exact (Lookup_result canonical_service "pkg:gem/rails@7.0.0" [] _ eq_refl eq_refl).
  - exact (Lookup_result twofold_service "pkg:gem/rails" [] _ eq_refl eq_refl).
Defined.

Lemma Lookup_failure_witness :
  Lookup down_service "pkg:gem/rails" []
  = ((None, Some (Errorf_w "bulk lookup: %w" (ExternalError "connection refused"))),
     [CallBulkLookupPackages ["pkg:gem/rails"]])
  /\ Lookup refusing_service "pkg:gem/rails" [CallGetRegistries]
     = ((None, Some (Errorf_s "bulk lookup failed: %s" "too many requests")),
        [CallGetRegistries; CallBulkLookupPackages ["pkg:gem/rails"]]).
Proof.
  split.
  - destruct (Lookup_failure down_service "pkg:gem/rails" []) as [Hcause _].
    exact (Hcause _ eq_refl).
  - destruct (Lookup_failure refusing_service "pkg:gem/rails" [CallGetRegistries])
      as [_ Hstatus].
    apply (Hstatus _ eq_refl). simpl. discriminate.
Defined.

Lemma single_entity_cases_witness :
  LookupByRegistryAndName found_service "rubygems.org" "rake" []
  = ((Some "rake", None), [CallGetRegistryPackage "rubygems.org" "rake"])
  /\ GetVersion created_service "rubygems.org" "rake" "13.0.0" []
     = ((None, Some (Errorf_d "get version failed with status %d" 201)),
        [CallGetRegistryPackageVersion "rubygems.org" "rake" "13.0.0"])
  /\ GetRepository down_service "https://github.com/ruby/rake" []
     = ((None, Some (Errorf_w "lookup repository: %w"
                              (ExternalError "connection refused"))),
        [CallRepositoriesLookup "https://github.com/ruby/rake"]).
Proof.
  split; [| split].
  - destruct (single_entity_cases found_service []) as (Hlookup & _ & _).
    destruct (Hlookup "rubygems.org" "rake") as [Hok _]. now apply Hok.
  - destruct (single_entity_cases created_service []) as (_ & Hversion & _).
    destruct (Hversion "rubygems.org" "rake" "13.0.0") as [_ Hother].
    apply Hother; simpl; discriminate.
  - destruct (single_entity_cases down_service []) as (_ & _ & Hrepo).
    exact (Hrepo "https://github.com/ruby/rake").
Defined.

Lemma ListRegistries_cases_witness :
  ListRegistries echo_service []
  = (([], Some (Errorf_d "list registries failed with status %d" 404)),
     [CallGetRegistries])
  /\ ListRegistries found_service []
     = ((["rubygems.org"; "npmjs.org"], None), [CallGetRegistries]).
Proof.
  split.
  - destruct (ListRegistries_cases echo_service []) as [_ Hother].
    apply Hother. simpl. discriminate.
  - destruct (ListRegistries_cases found_service []) as [Hok _].
    now apply Hok.
Defined.

Lemma PURL_operations_fail_fast_witness :
  LookupPURL found_service (packageurl.mkPackageURL "generic" "" "openssl" "3.0" [] "") []
  = ((None, Some (Errorf_s "unsupported PURL type: %s" "generic")), [])
  /\ GetVersionPURL found_service (packageurl.mkPackageURL "gem" "" "rails" "" [] "") []
     = ((None, Some (Errorf "PURL has no version")), []).
Proof.
  split.
  - destruct (PURL_operations_fail_fast found_service
                (packageurl.mkPackageURL "generic" "" "openssl" "3.0" [] "") [])
      as [Hout _].
    destruct Hout as (Hlookup & _ & _); [| exact Hlookup].
    vm_compute. intros Hin.
    repeat (apply elem_of_cons in Hin as [Heq | Hin]; [discriminate |]).
    now apply elem_of_nil in Hin.
  - destruct (PURL_operations_fail_fast found_service
                (packageurl.mkPackageURL "gem" "" "rails" "" [] "") [])
      as [_ Hversion].
    now apply Hversion.
Defined.

Lemma PURL_operations_delegate_witness :
  (LookupPURL found_service
     (packageurl.mkPackageURL "maven" "org.apache.commons" "commons-lang3" "" [] "") []).2
  = [CallGetRegistryPackage "repo1.maven.org" "org.apache.commons:commons-lang3"]
  /\ (GetVersionPURL found_service
        (packageurl.mkPackageURL "npm" "babel" "core" "7.20.0" [] "") []).2
     = [CallGetRegistryPackageVersion "npmjs.org" "babel/core" "7.20.0"].
Proof.
  split.
  - destruct (PURL_operations_delegate found_service
                (packageurl.mkPackageURL "maven" "org.apache.commons" "commons-lang3"
                                         "" [] "") [])
      as ([_ Hcall] & _ & _).
    + vm_compute. repeat constructor.
    + exact Hcall.
  - destruct (PURL_operations_delegate found_service
                (packageurl.mkPackageURL "npm" "babel" "core" "7.20.0" [] "") [])
      as (_ & Hversion & _).
    + vm_compute. repeat constructor.
    + destruct Hversion as [_ Hcall]; [simpl; discriminate | exact Hcall].
Defined.

Lemma SupportedPURLTypes_registry_witness :
  "npm" ∈ SupportedPURLTypes /\ "oci" ∉ SupportedPURLTypes.
Proof.
  destruct SupportedPURLTypes_registry as (Hiff & _ & Hnone). split.
  - apply (Hiff (packageurl.mkPackageURL "npm" "" "lodash" "" [] "")).
    vm_compute. discriminate.
  - intros Hin. apply (Hiff (packageurl.mkPackageURL "oci" "" "alpine" "" [] "")) in Hin.
    apply Hin. vm_compute. reflexivity.
Defined.

Lemma PURLToRegistry_injective_witness :
  packageurl.Type_ (packageurl.mkPackageURL "npm" "babel" "core" "7.20.0" [] "")
  = packageurl.Type_ (packageurl.mkPackageURL "npm" "" "lodash" "" [] "").
Proof.
  apply PURLToRegistry_injective.
  - vm_compute. reflexivity.
  - vm_compute. discriminate.
Defined.

Lemma addHeaders_sets_witness :
  http.Request_Header
    (addHeaders (WithFrom "someone@example.org"
                   {| cfg_packagesServer := DefaultPackagesServer;
                      cfg_reposServer := DefaultReposServer;
                      cfg_httpClient := defaultHTTPClient;
                      cfg_userAgent := "my-app/1.0";
                      cfg_fromEmail := ""; cfg_apiKey := "" |})
                {| http.Request_Header := {[ "Accept" := ["application/json"] ]} |}).1
    !! "Accept"
  = Some ["application/json"].
Proof.
  destruct (addHeaders_sets
              (WithFrom "someone@example.org"
                 {| cfg_packagesServer := DefaultPackagesServer;
                    cfg_reposServer := DefaultReposServer;
                    cfg_httpClient := defaultHTTPClient;
                    cfg_userAgent := "my-app/1.0";
                    cfg_fromEmail := ""; cfg_apiKey := "" |})
              {| http.Request_Header := {[ "Accept" := ["application/json"] ]} |})
    as (_ & _ & _ & _ & Hother).
  rewrite Hother by discriminate. vm_compute. reflexivity.
Defined.

Lemma NewClient_options_witness :
  exists cl,
    NewClient (packages_New echo_service) (repos_New echo_service) "my-app/1.0"
              (option_of <$> [SetFrom "a@example.org"; SetAPIKey "k"; SetFrom "b@example.org"])
              []
    = ((Some cl, None), [])
    /\ userAgent cl = "my-app/1.0".
Proof.
  eexists. split; [reflexivity |].
  destruct (NewClient_options (packages_New echo_service) (repos_New echo_service)
              "my-app/1.0"
              [SetFrom "a@example.org"; SetAPIKey "k"; SetFrom "b@example.org"] [])
    as [_ Hagent].
  eapply Hagent. reflexivity.
Defined.


Lemma GetAllVersions_failure_witness :
  GetAllVersions 2 overloaded_service "rubygems.org" "rake" []
  = (Some ([], Some (Errorf_d "get versions failed with status %d" 503)),
     versions_calls "rubygems.org" "rake" 2)
  /\ GetAllVersions 2 dropping_service "rubygems.org" "rake" []
     = (Some ([], Some (Errorf_w "get versions: %w" (ExternalError "connection reset"))),
        versions_calls "rubygems.org" "rake" 2).
Proof.
  split.
  - destruct (GetAllVersions_failure overloaded_service "rubygems.org" "rake" []
                [take 100 all_versions]) with (fuel := 2) as [_ Hstatus].
    + simpl. lia.
    + intros [| k] vs Hk; simpl in Hk; [| discriminate].
      injection Hk as <-. eexists. split; [reflexivity |].
      split; [reflexivity |]. split; [reflexivity |]. vm_compute. lia.
    + simpl. lia.
    + apply (Hstatus _ eq_refl); simpl; discriminate.
  - destruct (GetAllVersions_failure dropping_service "rubygems.org" "rake" []
                [take 100 all_versions]) with (fuel := 2) as [Hcause _].
    + simpl. lia.
    + intros [| k] vs Hk; simpl in Hk; [| discriminate].
      injection Hk as <-. eexists. split; [reflexivity |].
      split; [reflexivity |]. split; [reflexivity |]. vm_compute. lia.
    + simpl. lia.
    + exact (Hcause _ eq_refl).
Defined.

Lemma GetAllVersions_first_page_witness :
  GetAllVersions 3 echo_service "rubygems.org" "no-such-gem" []
  = GetAllVersions 3 unreleased_service "rubygems.org" "no-such-gem" [].
Proof.
  rewrite (GetAllVersions_first_page echo_service "rubygems.org" "no-such-gem" []
             {| StatusCode := 404; JSON200 := None; JSON400 := None |} 3);
    [| lia | reflexivity | now left].
  rewrite (GetAllVersions_first_page unreleased_service "rubygems.org" "no-such-gem" []
             {| StatusCode := 200; JSON200 := Some []; JSON400 := None |} 3);
    [reflexivity | lia | reflexivity | right; split; reflexivity].
Defined.

Lemma GetAllVersions_endless_witness :
  GetAllVersions 7 endless_service "rubygems.org" "rake" []
  = (None, versions_calls "rubygems.org" "rake" 7).
Proof.
  apply (GetAllVersions_endless endless_service "rubygems.org" "rake" []
           (fun _ => replicate 100 "1.0.0")).
  - intros k. eexists. split; [reflexivity |]. split; [reflexivity |].
    split; [reflexivity |]. vm_compute. lia.
  - simpl. lia.
Defined.

Lemma BulkLookup_last_wins_witness :
  exists m,
    BulkLookup twofold_service ["pkg:gem/rails"] []
    = ((Some m, None), [CallBulkLookupPackages ["pkg:gem/rails"]])
    /\ m !! "pkg:gem/rails"
       = Some {| packages.Purl := "pkg:gem/rails"; packages.Name := "pkg:gem/rails";
                 packages.Ecosystem := "second" |}
    /\ m !! "pkg:gem/rake" = None.
Proof.
  exists {[ "pkg:gem/rails" :=
              {| packages.Purl := "pkg:gem/rails"; packages.Name := "pkg:gem/rails";
                 packages.Ecosystem := "second" |} ]}.
  assert (BulkLookup twofold_service ["pkg:gem/rails"] []
          = ((Some {[ "pkg:gem/rails" :=
                        {| packages.Purl := "pkg:gem/rails";
                           packages.Name := "pkg:gem/rails";
                           packages.Ecosystem := "second" |} ]}, None),
             [CallBulkLookupPackages ["pkg:gem/rails"]])) as Hrun.
  { vm_compute. reflexivity. }
  split; [exact Hrun |]. split.
  - rewrite (BulkLookup_last_wins _ _ _ _ _ Hrun). reflexivity.
  - rewrite (BulkLookup_last_wins _ _ _ _ _ Hrun). reflexivity.
Defined.

Lemma BulkLookup_batch_indices_witness :
  length (batches many_purls) = 3
  /\ batches many_purls !! 2 = Some (slice many_purls 200 250).
Proof.
  destruct (BulkLookup_batch_indices echo_service many_purls []) as (Hcount & Hindex & _).
  split.
  - rewrite Hcount. vm_compute. reflexivity.
  - destruct (batches many_purls !! 2) as [b |] eqn:Hb; [| vm_compute in Hb; discriminate].
    destruct (Hindex 2 b Hb) as [-> _]. vm_compute. reflexivity.
Defined.
End more_examples.
